(** * x402 payment selection and orchestration

    A shallow embedding of the payment core of the pay-per-view demo:
    the requirement selectors ([selectFirstOption], [selectCheapestOption],
    [createSelectForCurrentNetwork], [createSelectByRequirement]), the
    [useX402Payment] hook ([pay], [reset]) and the page's affordability
    check ([hasSufficientBalance]); further the hook's
    [fetchPaymentRequirements] and [wagmiToClientSigner], the pages'
    [handlePayment], selection effect and token reads, and the
    component's [extractChainId], [contracts] and [getTokenInfo].

    JavaScript built-ins and third-party SDK functions the code calls
    ([BigInt], number-to-string conversion, [Number.parseFloat],
    [formatUnits], [decodePaymentResponseHeader], the payment-capable
    [fetch] wrapper) are Section variables of the definitions that call
    them, so every theorem holds for whatever these functions do.  Module
    [Host] gives executable instances used to run the code on concrete
    inputs. *)

From Stdlib Require Import String Ascii List ZArith NArith Lia Bool.
From Stdlib Require Import DecimalString DecimalN DecimalPos.
Import ListNotations.

Set Warnings "-register-all,-notation-for-abbreviation".

(* ################################################################# *)
(** * Part I: the program *)

(* ================================================================= *)
(** ** JavaScript values, exceptions and abrupt completion *)

Module Js.

(** What a [throw] raises.  The code under study only ever reads the
    [message] property of what it catches, so an [Error] (or any value
    with a [message] string) is its message; every other thrown value
    (a string, [undefined], ...) has no [message]. *)
Inductive Thrown : Type :=
| ErrorObj (message : string)
| NonError (repr : string).

(** A computation that either throws ([inl]) or returns ([inr]). *)
Definition Completion (A : Type) : Type := (Thrown + A)%type.

Definition ret {A : Type} (a : A) : Completion A := inr a.

Definition throw {A : Type} (e : Thrown) : Completion A := inl e.

Definition bind {A B : Type} (c : Completion A) (k : A -> Completion B)
  : Completion B :=
  match c with
  | inl e => inl e
  | inr a => k a
  end.

(** [!s] is false exactly for the non-empty strings. *)
Definition truthy (s : string) : bool :=
  match s with
  | EmptyString => false
  | String _ _ => true
  end.

(** [a || b] on strings. *)
Definition or_else (a b : string) : string := if truthy a then a else b.

(** The decimal digits of a non-negative integer, as [`${n}`] prints an
    integer-valued number below 10^21. *)
Definition decimal (n : N) : string := NilZero.string_of_uint (N.to_uint n).

(** JSON data, as returned by [Response.json()]. *)
Inductive Json : Type :=
| JNull
| JBool (b : bool)
| JNum (n : Z)
| JStr (s : string)
| JArr (items : list Json)
| JObj (fields : list (string * Json)).

End Js.

Declare Scope js_scope.
Delimit Scope js_scope with js.
Notation "x <- c ;; k" := (Js.bind c (fun x => k))
  (at level 61, c at next level, right associativity) : js_scope.

(* ================================================================= *)
(** ** The protocol's data *)

Module X402.
Import Js.

(** [PaymentRequirements] of the protocol SDK.  [value] is the property
    older servers send in place of [amount]; the page reads it at run
    time although the type does not declare it. *)
Record PaymentRequirements : Type := {
  scheme : string;
  network : string;
  asset : string;
  amount : string;
  payTo : string;
  maxTimeoutSeconds : N;
  extra : list (string * string);
  value : option string
}.

(** [SelectPaymentRequirements]: [(x402Version, accepts) => requirement].
    The selectors test [!accepts], so the list may be absent. *)
Definition SelectPaymentRequirements (JsNumber : Type) : Type :=
  JsNumber -> option (list PaymentRequirements) -> Completion PaymentRequirements.

End X402.

(* ================================================================= *)
(** ** utils/paymentRequiredSelector *)

Module Selectors.
Import Js X402.
Local Open Scope js_scope.
Local Open Scope string_scope.

Definition NoOptionsAvailable : Thrown :=
  ErrorObj "No payment options available".

(** [Array.prototype.sort(compareFn)].  ECMAScript fixes the result for a
    consistent comparator (the sort is stable) and lets an exception of
    the comparator escape; only the sequence of comparator calls is left
    to the engine.  The model is the stable insertion sort: [x], which
    precedes every element of [sorted] in the array, moves right past
    [y] exactly when [compareFn(x, y) > 0].  An array of fewer than two
    elements is returned without calling the comparator. *)
Section ArraySort.
Context {A : Type}.
Variable compareFn : A -> A -> Completion Z.

Fixpoint sort_insert (x : A) (sorted : list A) : Completion (list A) :=
  match sorted with
  | [] => ret [x]
  | y :: rest =>
      c <- compareFn x y ;;
      if (0 <? c)%Z
      then (r <- sort_insert x rest ;; ret (y :: r))
      else ret (x :: y :: rest)
  end.

Fixpoint Array_sort (l : list A) : Completion (list A) :=
  match l with
  | [] => ret []
  | x :: rest => s <- Array_sort rest ;; sort_insert x s
  end.

End ArraySort.

Section Selectors.
(** The type of JavaScript numbers and [`${n}`]. *)
Variable JsNumber : Type.
Variable NumberToString : JsNumber -> string.
(** [BigInt(s)]: throws a [SyntaxError] when [s] is not an integer
    literal. *)
Variable BigInt : string -> Completion Z.

(** The comparator passed to [sort] by [selectCheapestOption]. *)
Definition compareAmount (a b : PaymentRequirements) : Completion Z :=
  aValue <- BigInt (amount a) ;;
  bValue <- BigInt (amount b) ;;
  if (aValue <? bValue)%Z then ret (-1)%Z
  else if (aValue >? bValue)%Z then ret 1%Z
  else ret 0%Z.

(** [selectCheapestOption].  [sorted[0]] is read from a copy of a
    non-empty array, whose first element stands in as the default of
    [hd]; it is never used, since sorting keeps the length. *)
Definition selectCheapestOption : SelectPaymentRequirements JsNumber :=
  fun version accepts =>
    match accepts with
    | None | Some [] => throw NoOptionsAvailable
    | Some (first :: others) =>
        sorted <- Array_sort compareAmount (first :: others) ;;
        ret (hd first sorted)
    end.

(** [selectFirstOption]. *)
Definition selectFirstOption : SelectPaymentRequirements JsNumber :=
  fun version accepts =>
    match accepts with
    | None | Some [] => throw NoOptionsAvailable
    | Some (first :: _) => ret first
    end.

(** The network identifier [`eip155:${chainId}`]. *)
Definition eip155 (chainId : JsNumber) : string :=
  "eip155:" ++ NumberToString chainId.

Definition NoMatchForNetwork (chainId : JsNumber) : Thrown :=
  ErrorObj ("No payment option available for current network ("
            ++ eip155 chainId ++ ")").

(** [createSelectForCurrentNetwork]. *)
Definition createSelectForCurrentNetwork (chainId : JsNumber)
  : SelectPaymentRequirements JsNumber :=
  fun version accepts =>
    match accepts with
    | None | Some [] => throw NoOptionsAvailable
    | Some l =>
        match find (fun option => String.eqb (network option) (eip155 chainId)) l with
        | None => throw (NoMatchForNetwork chainId)
        | Some selectedPaymentRequirement => ret selectedPaymentRequirement
        end
    end.

Definition NoMatchForRequirement : Thrown :=
  ErrorObj "Selected payment requirement not found in available options".

(** The predicate of [accepts.find] in [createSelectByRequirement]. *)
Definition sameKeyProperties (selectedRequirement option : PaymentRequirements)
  : bool :=
  String.eqb (network option) (network selectedRequirement)
  && String.eqb (asset option) (asset selectedRequirement)
  && String.eqb (amount option) (amount selectedRequirement)
  && String.eqb (payTo option) (payTo selectedRequirement).

(** [createSelectByRequirement]. *)
Definition createSelectByRequirement (selectedRequirement : PaymentRequirements)
  : SelectPaymentRequirements JsNumber :=
  fun version accepts =>
    match accepts with
    | None | Some [] => throw NoOptionsAvailable
    | Some l =>
        match find (sameKeyProperties selectedRequirement) l with
        | None => throw NoMatchForRequirement
        | Some matched => ret matched
        end
    end.

End Selectors.

End Selectors.

(* ================================================================= *)
(** ** The Fetch API's [Response], as far as the hook reads it *)

Module Fetch.
Import Js.

Record Response : Type := {
  ok : bool;
  status : N;
  statusText : string;
  (** [response.headers.get(name)] *)
  headers_get : string -> option string;
  (** the outcome of [response.json()] *)
  json : Completion Json
}.

(** [response.clone()] *)
Definition clone (response : Response) : Response := response.

End Fetch.

(* ================================================================= *)
(** ** hooks/useX402Payment *)

Module Status.

Inductive PaymentStatus : Type := idle | paying | success | error.

End Status.

Module Hook.
Import Js X402.
Export Status.
Local Open Scope string_scope.

Record PayVariables : Type := { url : string }.

Record Account : Type := { address : string }.

(** The wallet client of the account layer: its account, if any, and its
    typed-data signing request. *)
Record WalletClient : Type := {
  account : option Account;
  wallet_signTypedData : string -> Completion string
}.

Record ClientEvmSigner : Type := {
  signer_address : string;
  signTypedData : string -> Completion string
}.

(** [walletClient.extend(publicActions)] adds read actions and keeps the
    account and the signing request. *)
Definition extend (walletClient : WalletClient) : WalletClient := walletClient.

(** [wagmiToClientSigner]. *)
Definition wagmiToClientSigner (walletClient : WalletClient)
  : Completion ClientEvmSigner :=
  match account walletClient with
  | None => throw (ErrorObj "Wallet client must have an account")
  | Some acct =>
      ret {| signer_address := address acct;
             signTypedData := fun message => wallet_signTypedData walletClient message |}
  end.

(** The callbacks of [pay]; each may itself throw (or reject).  The
    [context] argument is always [undefined] and is left out. *)
Record PayCallbacks : Type := {
  onSuccess : option (Json -> PayVariables -> Completion unit);
  onError : option (Thrown -> PayVariables -> Completion unit);
  onSettled : option (option Json -> option Thrown -> PayVariables -> Completion unit)
}.

(** What the caller observes of the hook: [{status, error, result,
    paymentRequirements}].  [result] is [any], initially [null]. *)
Record HookState : Type := {
  status : PaymentStatus;
  error : option string;
  result : Json;
  paymentRequirements : option (list PaymentRequirements)
}.

Definition initialState : HookState :=
  {| status := idle; error := None; result := JNull; paymentRequirements := None |}.

(** The observable steps of the hook's functions, in program order: the
    state setters, the console, and the calls of the caller's
    callbacks. *)
Inductive Effect : Type :=
| SetStatus (s : PaymentStatus)
| SetError (e : option string)
| SetResult (r : Json)
| SetPaymentRequirements (reqs : option (list PaymentRequirements))
| ConsoleLog (label : string)
| ConsoleWarn (label : string)
| ConsoleError (label : string)
| CallOnSuccess (data : Json) (variables : PayVariables)
| CallOnError (err : Thrown) (variables : PayVariables)
| CallOnSettled (data : option Json) (err : option Thrown) (variables : PayVariables).

Definition apply (s : HookState) (e : Effect) : HookState :=
  match e with
  | SetStatus st =>
      {| status := st; error := error s; result := result s;
         paymentRequirements := paymentRequirements s |}
  | SetError err =>
      {| status := status s; error := err; result := result s;
         paymentRequirements := paymentRequirements s |}
  | SetResult r =>
      {| status := status s; error := error s; result := r;
         paymentRequirements := paymentRequirements s |}
  | SetPaymentRequirements reqs =>
      {| status := status s; error := error s; result := result s;
         paymentRequirements := reqs |}
  | _ => s
  end.

(** The state after a run of effects. *)
Definition after (s : HookState) (effects : list Effect) : HookState :=
  fold_left apply effects s.

(** An asynchronous function: the effects it performed, and whether its
    promise rejects or resolves. *)
Definition Task (A : Type) : Type := (list Effect * Completion A)%type.

Definition done {A : Type} (a : A) : Task A := ([], inr a).

Definition reject {A : Type} (e : Thrown) : Task A := ([], inl e).

Definition emit (e : Effect) : Task unit := ([e], inr tt).

Definition await {A : Type} (c : Completion A) : Task A := ([], c).

Definition andThen {A B : Type} (t : Task A) (k : A -> Task B) : Task B :=
  match t with
  | (effects, inl e) => (effects, inl e)
  | (effects, inr a) =>
      match k a with
      | (effects', r) => ((effects ++ effects')%list, r)
      end
  end.

(** [try { body } catch (err) { handler }] *)
Definition tryCatch {A : Type} (body : Task A) (handler : Thrown -> Task A) : Task A :=
  match body with
  | (effects, inl err) =>
      match handler err with
      | (effects', r) => ((effects ++ effects')%list, r)
      end
  | (effects, inr a) => (effects, inr a)
  end.

Declare Scope task_scope.
Delimit Scope task_scope with task.
Notation "x <- c ;; k" := (andThen c (fun x => k))
  (at level 61, c at next level, right associativity) : task_scope.
Notation "c ;; k" := (andThen c (fun _ => k))
  (at level 61, right associativity) : task_scope.
Local Open Scope task_scope.

(** [if (callbacks?.f) await callbacks.f(...)] *)
Definition whenProvided {F : Type} (callbacks : option PayCallbacks)
  (field : PayCallbacks -> option F) (call : F -> Task unit) : Task unit :=
  match callbacks with
  | None => done tt
  | Some cbs =>
      match field cbs with
      | None => done tt
      | Some f => call f
      end
  end.

(** [err?.message || "Unknown error occurred"] *)
Definition errorMessage (err : Thrown) : string :=
  match err with
  | ErrorObj message => or_else message "Unknown error occurred"
  | NonError _ => "Unknown error occurred"
  end.

(** The message of the wallet-client guard of [pay]. *)
Definition noWalletMessage : string :=
  "No wallet client available. Make sure wallet is connected.".

Definition NoWalletConnected : Thrown := ErrorObj noWalletMessage.

Section UseX402Payment.
Variable JsNumber : Type.
(** [decodePaymentRequiredHeader] and [decodePaymentResponseHeader] of
    the protocol SDK. *)
Variable PaymentRequired : Type.
Variable accepts_of : PaymentRequired -> option (list PaymentRequirements).
Variable decodePaymentRequiredHeader : string -> Completion (option PaymentRequired).
Variable SettleResponse : Type.
Variable decodePaymentResponseHeader : string -> Completion SettleResponse.
(** [fetch(url)] *)
Variable fetch : string -> Completion Fetch.Response.
(** [wrapFetchWithPayment(fetch, new x402Client(selector).register("eip155:*",
    new ExactEvmScheme(signer)))(url, {method: "GET"})] *)
Variable fetchWithPayment :
  SelectPaymentRequirements JsNumber -> ClientEvmSigner -> string
  -> Completion Fetch.Response.

(** The hook's [url] argument and the wallet client of [useWalletClient]. *)
Variable hook_url : string.
Variable walletClient : option WalletClient.

(** The body of [try] in [fetchPaymentRequirements]. *)
Definition fetchPaymentRequirements_body : Task (option (list PaymentRequirements)) :=
  response <- await (fetch hook_url) ;;
  match Fetch.headers_get response "PAYMENT-REQUIRED" with
  | Some (String c rest) =>
      headerDecoded <- await (decodePaymentRequiredHeader (String c rest)) ;;
      match headerDecoded with
      | Some decoded =>
          match accepts_of decoded with
          | Some accepts =>
              emit (SetPaymentRequirements (Some accepts)) ;;
              done (Some accepts)
          | None =>
              emit (SetPaymentRequirements None) ;;
              done None
          end
      | None =>
          emit (SetPaymentRequirements None) ;;
          done None
      end
  | _ =>
      emit (ConsoleWarn "No PAYMENT-REQUIRED header found in response") ;;
      emit (SetPaymentRequirements None) ;;
      done None
  end.

(** [fetchPaymentRequirements]. *)
Definition fetchPaymentRequirements : Task (option (list PaymentRequirements)) :=
  tryCatch fetchPaymentRequirements_body
    (fun err =>
       emit (ConsoleError "Failed to fetch payment requirements:") ;;
       emit (SetPaymentRequirements None) ;;
       done None).

(** The selector [pay] falls back to when it is given none. *)
Definition defaultSelector : SelectPaymentRequirements JsNumber :=
  fun version accepts =>
    match accepts with
    | None | Some [] => throw (ErrorObj "No payment options available")
    | Some (first :: _) => ret first
    end.

(** [paymentRequiredSelector || ((version, accepts) => ...)]: a function
    is truthy. *)
Definition selectorOrDefault (paymentRequiredSelector : option (SelectPaymentRequirements JsNumber))
  : SelectPaymentRequirements JsNumber :=
  match paymentRequiredSelector with
  | Some selector => selector
  | None => defaultSelector
  end.

(** [if (paymentResponse) { const decoded = decodePaymentResponseHeader(paymentResponse);
    console.log("Payment details:", decoded); }] *)
Definition logPaymentResponse (response : Fetch.Response) : Task unit :=
  match Fetch.headers_get response "PAYMENT-RESPONSE" with
  | Some (String c rest) =>
      decoded <- await (decodePaymentResponseHeader (String c rest)) ;;
      emit (ConsoleLog "Payment details:")
  | _ => done tt
  end.

(** [if (!response.ok) throw new Error(...)] *)
Definition requireOk (response : Fetch.Response) : Task unit :=
  if Fetch.ok response then done tt
  else reject (ErrorObj ("Request failed: " ++ decimal (Fetch.status response)
                         ++ " " ++ Fetch.statusText response)).

(** The end of the [try] block, from [setResult(data)] on. *)
Definition succeed (callbacks : option PayCallbacks) (variables : PayVariables)
  (data : Json) : Task Json :=
  emit (SetResult data) ;;
  emit (SetStatus success) ;;
  whenProvided callbacks onSuccess
    (fun f => emit (CallOnSuccess data variables) ;; await (f data variables)) ;;
  whenProvided callbacks onSettled
    (fun f => emit (CallOnSettled (Some data) None variables) ;;
              await (f (Some data) None variables)) ;;
  done data.

(** The body of [try] in [pay]. *)
Definition pay_body (wc : WalletClient)
  (paymentRequiredSelector : option (SelectPaymentRequirements JsNumber))
  (callbacks : option PayCallbacks) (variables : PayVariables) : Task Json :=
  let extendedWalletClient := extend wc in
  signer <- await (wagmiToClientSigner extendedWalletClient) ;;
  let selector := selectorOrDefault paymentRequiredSelector in
  response <- await (fetchWithPayment selector signer hook_url) ;;
  logPaymentResponse response ;;
  let clonedResponse := Fetch.clone response in
  data <- await (Fetch.json clonedResponse) ;;
  requireOk response ;;
  succeed callbacks variables data.

(** The [catch] clause of [pay]. *)
Definition pay_catch (callbacks : option PayCallbacks) (variables : PayVariables)
  (err : Thrown) : Task Json :=
  emit (SetError (Some (errorMessage err))) ;;
  emit (SetStatus Status.error) ;;
  whenProvided callbacks onError
    (fun f => emit (CallOnError err variables) ;; await (f err variables)) ;;
  whenProvided callbacks onSettled
    (fun f => emit (CallOnSettled None (Some err) variables) ;;
              await (f None (Some err) variables)) ;;
  reject err.

(** [pay]. *)
Definition pay (paymentRequiredSelector : option (SelectPaymentRequirements JsNumber))
  (callbacks : option PayCallbacks) : Task Json :=
  match walletClient with
  | None =>
      emit (SetStatus Status.error) ;;
      emit (SetError (Some noWalletMessage)) ;;
      reject (ErrorObj noWalletMessage)
  | Some wc =>
      let variables := {| url := hook_url |} in
      emit (SetStatus paying) ;;
      emit (SetError None) ;;
      tryCatch (pay_body wc paymentRequiredSelector callbacks variables)
               (pay_catch callbacks variables)
  end.

(** [reset]. *)
Definition reset : Task unit :=
  emit (SetStatus idle) ;;
  emit (SetError None) ;;
  emit (SetResult JNull).

End UseX402Payment.

End Hook.

(* ================================================================= *)
(** ** The page's affordability check *)

Module Page.
Import Js X402.
Local Open Scope js_scope.
Local Open Scope string_scope.

(** A decoded contract return value: the ABI decoder gives a [number]
    for [uint8] (a non-negative integer) and a [bigint] for [uint256]. *)
Inductive ContractValue : Type :=
| NumberValue (n : N)
| BigIntValue (z : Z).

(** One entry of [useReadContracts().data]. *)
Inductive ReadResult : Type :=
| ReadSuccess (result : ContractValue)
| ReadFailure (error : Thrown).

(** [r?.status === "success" ? r.result : undefined] *)
Definition successResult (r : option ReadResult) : option ContractValue :=
  match r with
  | Some (ReadSuccess result) => Some result
  | _ => None
  end.

Section HasSufficientBalance.
(** [BigInt(s)] *)
Variable BigInt : string -> Completion Z.
(** [formatUnits(value, decimals)] of the wallet library; the [as]
    casts of the page do nothing at run time, so it receives whatever
    the two reads returned. *)
Variable formatUnits : ContractValue -> ContractValue -> Completion string.
(** The numbers [Number.parseFloat] returns and [>=] on them. *)
Variable Float : Type.
Variable parseFloat : string -> Float.
Variable Float_ge : Float -> Float -> bool.

(** [selectedRequirement.amount || selectedRequirement.value || "0"] *)
Definition requiredAmountOf (selectedRequirement : PaymentRequirements) : string :=
  or_else (amount selectedRequirement)
    (or_else (match value selectedRequirement with Some v => v | None => "" end) "0").

(** The body of [try] in [hasSufficientBalance]. *)
Definition compareBalance (selectedRequirement : PaymentRequirements)
  (decimals balanceRaw : ContractValue) : Completion bool :=
  balance <- formatUnits balanceRaw decimals ;;
  let requiredAmount := requiredAmountOf selectedRequirement in
  required <- BigInt requiredAmount ;;
  requiredAmountFormatted <- formatUnits (BigIntValue required) decimals ;;
  ret (Float_ge (parseFloat balance) (parseFloat requiredAmountFormatted)).

(** [hasSufficientBalance]. *)
Definition hasSufficientBalance (selectedRequirement : option PaymentRequirements)
  (selectedTokenData : option (list ReadResult)) : bool :=
  match selectedRequirement, selectedTokenData with
  | Some requirement, Some data =>
      if (length data <? 2)%nat then true
      else
        let decimalsResult := nth_error data 0 in
        let balanceResult := nth_error data 1 in
        match successResult decimalsResult, successResult balanceResult with
        | Some decimals, Some balanceRaw =>
            match compareBalance requirement decimals balanceRaw with
            | inr answer => answer
            | inl _ => true
            end
        | _, _ => true
        end
  | _, _ => true
  end.

End HasSufficientBalance.

End Page.

(* ================================================================= *)
(** ** Executable built-ins *)

(** The built-ins and library functions on ASCII strings, to run the
    program on concrete inputs. *)
Module Host.
Import Js X402.
Local Open Scope string_scope.

Definition isWhiteSpace (c : ascii) : bool :=
  let n := N_of_ascii c in
  ((9 <=? n) && (n <=? 13) || (n =? 32))%N.

Fixpoint trimStart (s : string) : string :=
  match s with
  | String c rest => if isWhiteSpace c then trimStart rest else s
  | EmptyString => EmptyString
  end.

(** [s] without its trailing white space. *)
Fixpoint trimEnd (s : string) : string :=
  match s with
  | EmptyString => EmptyString
  | String c rest =>
      match trimEnd rest with
      | EmptyString => if isWhiteSpace c then EmptyString else String c EmptyString
      | rest' => String c rest'
      end
  end.

(** The value of a digit in a radix up to 16. *)
Definition digitValue (radix : N) (c : ascii) : option N :=
  let n := N_of_ascii c in
  let v := if ((48 <=? n) && (n <=? 57))%N then Some (n - 48)%N
           else if ((97 <=? n) && (n <=? 102))%N then Some (n - 87)%N
           else if ((65 <=? n) && (n <=? 70))%N then Some (n - 55)%N
           else None in
  match v with
  | Some d => if (d <? radix)%N then Some d else None
  | None => None
  end.

Fixpoint digitsFrom (radix acc : N) (s : string) : option N :=
  match s with
  | EmptyString => Some acc
  | String c rest =>
      match digitValue radix c with
      | Some d => digitsFrom radix (acc * radix + d)%N rest
      | None => None
      end
  end.

(** One or more digits of the radix, and nothing else. *)
Definition numeral (radix : N) (s : string) : option N :=
  match s with
  | EmptyString => None
  | _ => digitsFrom radix 0%N s
  end.

(** [StringToBigInt]: white space is trimmed; the empty string is [0n];
    a decimal literal may carry a sign; [0x], [0o] and [0b] literals may
    not. *)
Definition StringToBigInt (s : string) : option Z :=
  match trimEnd (trimStart s) with
  | EmptyString => Some 0%Z
  | String "0" (String ("x" | "X") digits) => option_map Z.of_N (numeral 16 digits)
  | String "0" (String ("o" | "O") digits) => option_map Z.of_N (numeral 8 digits)
  | String "0" (String ("b" | "B") digits) => option_map Z.of_N (numeral 2 digits)
  | String "-" digits => option_map (fun n => (- Z.of_N n)%Z) (numeral 10 digits)
  | String "+" digits => option_map Z.of_N (numeral 10 digits)
  | digits => option_map Z.of_N (numeral 10 digits)
  end.

(** [BigInt(s)] for a string argument. *)
Definition BigInt (s : string) : Completion Z :=
  match StringToBigInt s with
  | Some z => ret z
  | None => throw (ErrorObj ("Cannot convert " ++ s ++ " to a BigInt"))
  end.

(** [value.toString()] of a bigint. *)
Definition BigInt_toString (z : Z) : string :=
  if (z <? 0)%Z then "-" ++ decimal (Z.abs_N z) else decimal (Z.to_N z).

Fixpoint zeros (n : nat) : string :=
  match n with
  | O => EmptyString
  | S k => String "0" (zeros k)
  end.

(** [s.padStart(targetLength, "0")] *)
Definition padStart (s : string) (targetLength : nat) : string :=
  zeros (targetLength - String.length s) ++ s.

(** [s.replace(/(0+)$/, "")] *)
Fixpoint stripTrailingZeros (s : string) : string :=
  match s with
  | EmptyString => EmptyString
  | String c rest =>
      match stripTrailingZeros rest with
      | EmptyString => if Ascii.eqb c "0" then EmptyString else String c EmptyString
      | rest' => String c rest'
      end
  end.

(** [formatUnits(value, decimals)] of the wallet library, on a bigint
    and a non-negative integer. *)
Definition formatUnits_bigint (value : Z) (decimals : nat) : string :=
  let display := BigInt_toString value in
  let negative := (value <? 0)%Z in
  let display := if negative then substring 1 (String.length display - 1) display else display in
  let display := padStart display decimals in
  let integer := substring 0 (String.length display - decimals) display in
  let fraction := substring (String.length display - decimals) decimals display in
  let fraction := stripTrailingZeros fraction in
  (if negative then "-" else "")
  ++ or_else integer "0"
  ++ (if truthy fraction then "." ++ fraction else "").

(** [formatUnits] on what the two reads return.  The reads of
    [decimals()] and [balanceOf()] give a number and a bigint; the other
    combinations do not arise and are made to throw. *)
Definition formatUnits (value decimals : Page.ContractValue) : Completion string :=
  match value, decimals with
  | Page.BigIntValue v, Page.NumberValue d => ret (formatUnits_bigint v (N.to_nat d))
  | _, _ => throw (ErrorObj "formatUnits: unexpected argument types")
  end.

(** *** Binary64 numbers *)

(** A double: NaN, an infinity, or [(-1)^negative * m * 2^e]. *)
Inductive F64 : Type :=
| F64_nan
| F64_inf (negative : bool)
| F64_fin (negative : bool) (m : N) (e : Z).

(** [a / b] rounded to the nearest integer, a tie to the even one. *)
Definition roundHalfEven (a b : Z) : Z :=
  let q := (a / b)%Z in
  let r := (a mod b)%Z in
  if (2 * r <? b)%Z then q
  else if (b <? 2 * r)%Z then (q + 1)%Z
  else if Z.even q then q else (q + 1)%Z.

(** The exponent of the last place of the double for [num / den],
    counted from [-1074], the exponent of the least positive double:
    the ratio is taken in units of [2^-1074]; above [2^52] units only 53
    bits are kept. *)
Definition lastPlace (num den : Z) : Z :=
  Z.max (Z.log2 (num * 2 ^ 1074 / den) - 52) 0.

(** [num / den] in units of the last place, rounded. *)
Definition significand (num den : Z) : Z :=
  roundHalfEven (num * 2 ^ 1074) (den * 2 ^ lastPlace num den).

(** The double nearest to [num / den] (ties to even) for [den > 0]:
    53 bits of precision, least exponent [-1074], overflow to infinity
    from [2^1024] on. *)
Definition roundRatio (negative : bool) (num den : Z) : F64 :=
  if (num <=? 0)%Z then F64_fin negative 0 0
  else if (2 ^ 2098 <=? significand num den * 2 ^ lastPlace num den)%Z
       then F64_inf negative
       else F64_fin negative (Z.to_N (significand num den))
              (lastPlace num den - 1074).

(** The double nearest to [m * 10^exp10]. *)
Definition roundDecimal (negative : bool) (m : N) (exp10 : Z) : F64 :=
  if (0 <=? exp10)%Z then roundRatio negative (Z.of_N m * 10 ^ exp10) 1
  else roundRatio negative (Z.of_N m) (10 ^ (- exp10)).

(** The longest prefix of decimal digits, and what follows it. *)
Fixpoint takeDigits (s : string) : string * string :=
  match s with
  | EmptyString => (EmptyString, EmptyString)
  | String c rest =>
      match digitValue 10 c with
      | Some _ => let (ds, tail) := takeDigits rest in (String c ds, tail)
      | None => (EmptyString, s)
      end
  end.

Definition isDigit (c : ascii) : bool :=
  match digitValue 10 c with
  | Some _ => true
  | None => false
  end.

Fixpoint allDigits (s : string) : bool :=
  match s with
  | EmptyString => true
  | String c rest => isDigit c && allDigits rest
  end.

(** What follows is not a digit. *)
Definition noDigitAhead (tail : string) : Prop :=
  match tail with
  | EmptyString => True
  | String c _ => isDigit c = false
  end.

Definition digitsToN (s : string) : N :=
  match digitsFrom 10 0%N s with
  | Some n => n
  | None => 0%N
  end.

(** The exponent part [e[+-]digits] at the head of [s], if there is one. *)
Definition exponentPart (s : string) : Z :=
  match s with
  | String ("e" | "E") rest =>
      match rest with
      | String "-" ds =>
          match fst (takeDigits ds) with
          | EmptyString => 0%Z
          | digits => (- Z.of_N (digitsToN digits))%Z
          end
      | String "+" ds => Z.of_N (digitsToN (fst (takeDigits ds)))
      | ds => Z.of_N (digitsToN (fst (takeDigits ds)))
      end
  | _ => 0%Z
  end.

(** The longest prefix of [s] that is an unsigned decimal literal
    ([Infinity], or digits with an optional fraction and exponent, or a
    fraction with an optional exponent), as a number; NaN when there is
    none. *)
Definition parseUnsigned (negative : bool) (s : string) : F64 :=
  if prefix "Infinity" s then F64_inf negative
  else
    let '(integer, s) := takeDigits s in
    let '(fraction, s) :=
      match s with
      | String "." rest => takeDigits rest
      | _ => (EmptyString, s)
      end in
    if negb (truthy integer) && negb (truthy fraction) then F64_nan
    else
      roundDecimal negative (digitsToN (integer ++ fraction))
        (exponentPart s - Z.of_nat (String.length fraction)).

(** [Number.parseFloat(s)]: leading white space is skipped, and the
    longest prefix that is a decimal literal, with its sign, is
    converted. *)
Definition parseFloat (input : string) : F64 :=
  match trimStart input with
  | String "-" rest => parseUnsigned true rest
  | String "+" rest => parseUnsigned false rest
  | s => parseUnsigned false s
  end.

(** The finite double as an integer multiple of [2^emin]. *)
Definition scaled (emin : Z) (negative : bool) (m : N) (e : Z) : Z :=
  let magnitude := (Z.of_N m * 2 ^ (e - emin))%Z in
  if negative then (- magnitude)%Z else magnitude.

(** [x >= y] on numbers: false with a NaN operand; the two zeros are
    equal. *)
Definition F64_ge (x y : F64) : bool :=
  match x, y with
  | F64_nan, _ | _, F64_nan => false
  | F64_inf false, _ => true
  | _, F64_inf true => true
  | F64_inf true, _ => false
  | _, F64_inf false => false
  | F64_fin n1 m1 e1, F64_fin n2 m2 e2 =>
      let emin := Z.min e1 e2 in
      (scaled emin n2 m2 e2 <=? scaled emin n1 m1 e1)%Z
  end.

(** The page's affordability check on these built-ins. *)
Definition hasSufficientBalance (selectedRequirement : option PaymentRequirements)
  (selectedTokenData : option (list Page.ReadResult)) : bool :=
  Page.hasSufficientBalance BigInt formatUnits F64 parseFloat F64_ge
    selectedRequirement selectedTokenData.

End Host.

(* ================================================================= *)
(** ** The payment SDK *)

Module Sdk.
Import Js X402.
Local Open Scope js_scope.
Local Open Scope string_scope.

(** The resource server as the wrapper sees it: its answer to the plain
    request, the decoded payment-required header of that answer (when it
    asks for payment), and its answer to the request retried with an
    authorization. *)
Record Server : Type := {
  firstResponse : Fetch.Response;
  paymentRequired : option (N * list PaymentRequirements);
  retriedResponse : string -> Fetch.Response
}.

(** The structured message the signer is asked to sign for a chosen
    requirement. *)
Definition authorizationMessage (selected : PaymentRequirements) : string :=
  network selected ++ "|" ++ asset selected ++ "|" ++ amount selected
  ++ "|" ++ payTo selected.

(** Modelled from the spec: the payment-capable request wrapper of the
    protocol SDK ([wrapFetchWithPayment] over an [x402Client]), which is
    not among the sources.  It performs: request, observe the
    payment-required response, invoke the selector, sign, retry the
    request with the authorization header, return the final response; a
    throwing selector or signer fails the request. *)
Definition wrapFetchWithPayment (server : Server)
  (selector : SelectPaymentRequirements N) (signer : Hook.ClientEvmSigner)
  (url : string) : Completion Fetch.Response :=
  match paymentRequired server with
  | None => ret (firstResponse server)
  | Some (version, accepts) =>
      selected <- selector version (Some accepts) ;;
      authorization <- Hook.signTypedData signer (authorizationMessage selected) ;;
      ret (retriedResponse server authorization)
  end.

Definition isBase64Char (c : ascii) : bool :=
  let n := N_of_ascii c in
  ((48 <=? n) && (n <=? 57) || (65 <=? n) && (n <=? 90)
   || (97 <=? n) && (n <=? 122) || (n =? 43) || (n =? 47) || (n =? 61))%N.

Fixpoint isBase64 (s : string) : bool :=
  match s with
  | EmptyString => true
  | String c rest => isBase64Char c && isBase64 rest
  end.

(** Modelled from the spec: the decoder of the settlement-confirmation
    header ([decodePaymentResponseHeader] of the protocol SDK), which is
    not among the sources, and which can fail ([DecodeFailed]).  Here a
    header is base64 text and every other header fails to decode; the
    decoded settlement is left as the header's text. *)
Definition decodePaymentResponseHeader (header : string) : Completion string :=
  if isBase64 header then ret header
  else throw (ErrorObj "Invalid payment response header").

End Sdk.

(* ================================================================= *)
(** ** Vocabulary of the specification *)

Module Spec.
Import Js X402.

Section Amounts.
Variable BigInt : string -> Completion Z.

(** The requirement's amount string denotes the integer [z]. *)
Definition amountIs (r : PaymentRequirements) (z : Z) : Prop :=
  BigInt (amount r) = inr z.

Definition integerAmount (r : PaymentRequirements) : Prop :=
  exists z, amountIs r z.

(** [a] costs strictly less than [b], as integers. *)
Definition cheaper (a b : PaymentRequirements) : Prop :=
  exists za zb, amountIs a za /\ amountIs b zb /\ (za < zb)%Z.

(** [a] costs at most what [b] costs, as integers. *)
Definition notDearer (a b : PaymentRequirements) : Prop :=
  exists za zb, amountIs a za /\ amountIs b zb /\ (za <= zb)%Z.

End Amounts.

(** The properties a pinned requirement is matched on. *)
Definition keyTuple (r : PaymentRequirements) : string * string * string * string :=
  (network r, asset r, amount r, payTo r).

(** [r] is the first element of [l] that satisfies [P]. *)
Definition firstWith {A : Type} (P : A -> Prop) (l : list A) (r : A) : Prop :=
  exists pre post, l = pre ++ r :: post /\ P r /\ Forall (fun x => ~ P x) pre.

(** The callbacks that are provided return normally, whatever they are
    called with. *)
Definition returnNormally (callbacks : option Hook.PayCallbacks) : Prop :=
  match callbacks with
  | None => True
  | Some cbs =>
      (forall f, Hook.onSuccess cbs = Some f -> forall d v, f d v = inr tt)
      /\ (forall f, Hook.onError cbs = Some f -> forall e v, f e v = inr tt)
      /\ (forall f, Hook.onSettled cbs = Some f -> forall d e v, f d e v = inr tt)
  end.

(** The call of a callback, when that callback is provided. *)
Definition callOf {F : Type} (callbacks : option Hook.PayCallbacks)
  (field : Hook.PayCallbacks -> option F) (call : Hook.Effect) : list Hook.Effect :=
  match callbacks with
  | None => []
  | Some cbs =>
      match field cbs with
      | None => []
      | Some _ => [call]
      end
  end.

End Spec.

Arguments Selectors.selectFirstOption {JsNumber} version accepts.
Arguments Selectors.selectCheapestOption {JsNumber} BigInt version accepts.
Arguments Selectors.createSelectForCurrentNetwork {JsNumber} NumberToString chainId version accepts.
Arguments Selectors.createSelectByRequirement {JsNumber} selectedRequirement version accepts.
Arguments Selectors.eip155 {JsNumber} NumberToString chainId.
Arguments Selectors.NoMatchForNetwork {JsNumber} NumberToString chainId.
Arguments Hook.defaultSelector {JsNumber} version accepts.
Arguments Hook.selectorOrDefault {JsNumber} paymentRequiredSelector.
Arguments Hook.logPaymentResponse {SettleResponse} decodePaymentResponseHeader response.
Arguments Hook.pay_body {JsNumber SettleResponse} decodePaymentResponseHeader
  fetchWithPayment hook_url wc paymentRequiredSelector callbacks variables.
Arguments Hook.pay {JsNumber SettleResponse} decodePaymentResponseHeader
  fetchWithPayment hook_url walletClient paymentRequiredSelector callbacks.

Arguments Page.hasSufficientBalance BigInt formatUnits {Float} parseFloat Float_ge
  selectedRequirement selectedTokenData.

(* ================================================================= *)
(** ** A resource server, a wallet and offers to run the program on *)

Module Demo.
Import Js X402.
Local Open Scope string_scope.

Definition requirement (net amt : string) : PaymentRequirements :=
  {| scheme := "exact"; network := net; asset := "0xAAA"; amount := amt;
     payTo := "0xBBB"; maxTimeoutSeconds := 60;
     extra := [("description", "stream access")]; value := None |}.

(** Offers costing 100, 50 and 75. *)
Definition offers : list PaymentRequirements :=
  [requirement "eip155:1" "100"; requirement "eip155:10" "50";
   requirement "eip155:8453" "75"].

(** Offers costing 70, 20, 90 and 20: the least amount occurs twice. *)
Definition tiedOffers : list PaymentRequirements :=
  [requirement "eip155:1" "70"; requirement "eip155:10" "20";
   requirement "eip155:137" "90"; requirement "eip155:8453" "20"].

(** An offer list with an amount that is not an integer literal. *)
Definition malformedOffers : list PaymentRequirements :=
  [requirement "eip155:1" "1.5"; requirement "eip155:10" "50"].

(** The user's pick as the page holds it: the tuple of the second offer,
    with other fields that differ from it. *)
Definition pinned : PaymentRequirements :=
  {| scheme := "upto"; network := "eip155:10"; asset := "0xAAA"; amount := "50";
     payTo := "0xBBB"; maxTimeoutSeconds := 5; extra := []; value := Some "50" |}.

Definition wallet : Hook.WalletClient :=
  {| Hook.account := Some {| Hook.address := "0xCCC" |};
     Hook.wallet_signTypedData := fun message => inr ("signed:" ++ message) |}.

(** Callbacks that only observe. *)
Definition observers : Hook.PayCallbacks :=
  {| Hook.onSuccess := Some (fun _ _ => inr tt);
     Hook.onError := Some (fun _ _ => inr tt);
     Hook.onSettled := Some (fun _ _ _ => inr tt) |}.

Definition okBody : Json := JObj [("ok", JBool true)].

(** The answer to a paid request: 200 with the body [{ok: true}] and the
    given PAYMENT-RESPONSE header. *)
Definition paidResponse (settlement : option string) : Fetch.Response :=
  {| Fetch.ok := true; Fetch.status := 200; Fetch.statusText := "OK";
     Fetch.headers_get := fun name =>
       if String.eqb name "PAYMENT-RESPONSE" then settlement else None;
     Fetch.json := inr okBody |}.

Definition paymentRequiredResponse : Fetch.Response :=
  {| Fetch.ok := false; Fetch.status := 402; Fetch.statusText := "Payment Required";
     Fetch.headers_get := fun _ => None;
     Fetch.json := inr (JObj []) |}.

(** A server that asks for payment with the given offers and answers
    the paid request with the given settlement header. *)
Definition server (accepts : list PaymentRequirements) (settlement : option string)
  : Sdk.Server :=
  {| Sdk.firstResponse := paymentRequiredResponse;
     Sdk.paymentRequired := Some (2%N, accepts);
     Sdk.retriedResponse := fun _ => paidResponse settlement |}.

(** [useX402Payment("/api/stream/access").pay] against such a server. *)
Definition pay (accepts : list PaymentRequirements) (settlement : option string)
  (walletClient : option Hook.WalletClient)
  (paymentRequiredSelector : option (SelectPaymentRequirements N))
  (callbacks : option Hook.PayCallbacks) : Hook.Task Json :=
  Hook.pay Sdk.decodePaymentResponseHeader
    (Sdk.wrapFetchWithPayment (server accepts settlement))
    "/api/stream/access" walletClient paymentRequiredSelector callbacks.

(** One token of 18 decimals, and one base unit more. *)
Definition oneToken : Z := 1000000000000000000.

Definition oneTokenAndOneUnit : PaymentRequirements :=
  {| scheme := "exact"; network := "eip155:84532"; asset := "0xAAA";
     amount := "1000000000000000001"; payTo := "0xBBB"; maxTimeoutSeconds := 60;
     extra := []; value := None |}.

End Demo.

Arguments Hook.fetchPaymentRequirements {PaymentRequired} accepts_of
  decodePaymentRequiredHeader fetch hook_url.

(* ================================================================= *)
(** ** Built-ins of the component and the pages *)

Module Builtins.
Import Js Host.
Local Open Scope string_scope.

(** The decimal digits at the head of [s] as a number, NaN when there
    is none. *)
Definition parseDigits (negative : bool) (s : string) : F64 :=
  match fst (takeDigits s) with
  | EmptyString => F64_nan
  | digits => roundRatio negative (Z.of_N (digitsToN digits)) 1
  end.

(** [Number.parseInt(s, 10)]: leading white space is skipped, a sign is
    read, and the digits that follow are converted; what comes after
    them is ignored. *)
Definition parseInt10 (input : string) : F64 :=
  match trimStart input with
  | String "-" rest => parseDigits true rest
  | String "+" rest => parseDigits false rest
  | s => parseDigits false s
  end.

(** [!!n] on numbers: false for NaN and for the two zeros. *)
Definition truthyNumber (n : F64) : bool :=
  match n with
  | F64_nan => false
  | F64_inf _ => true
  | F64_fin _ m _ => negb (m =? 0)%N
  end.

(** [s.split(sep)] for a separator of one character. *)
Fixpoint split (sep : ascii) (s : string) : list string :=
  match s with
  | EmptyString => [EmptyString]
  | String c rest =>
      if Ascii.eqb c sep then EmptyString :: split sep rest
      else match split sep rest with
           | field :: fields => String c field :: fields
           | [] => [String c EmptyString]
           end
  end.

(** SameValueZero on numbers, the equality of [Set]: NaN is the same
    as NaN, and the two zeros are the same. *)
Definition sameValueZero (x y : F64) : bool :=
  match x, y with
  | F64_nan, F64_nan => true
  | _, _ => F64_ge x y && F64_ge y x
  end.

(** [set.add(x)], the set in the order of insertion, last first. *)
Definition Set_add (set : list F64) (x : F64) : list F64 :=
  if existsb (sameValueZero x) set then set else x :: set.

(** [Array.from(new Set(values))]: the values in the order in which
    they first occur. *)
Definition Array_from_Set (values : list F64) : list F64 :=
  rev (fold_left Set_add values []).

(** The finite number [x] is the integer [z]. *)
Definition isInteger (x : F64) (z : Z) : Prop :=
  match x with
  | F64_fin negative m e =>
      (-1074 <= e)%Z
      /\ ((if negative then - Z.of_N m else Z.of_N m) * 2 ^ (e + 1074)
          = z * 2 ^ 1074)%Z
  | _ => False
  end.

End Builtins.

(* ================================================================= *)
(** ** components/PaymentRequirementSelector *)

Module Component.
Import Js X402 Host Builtins.
Local Open Scope js_scope.
Local Open Scope string_scope.

(** [extractChainId].  [split(":")[1]] exists for a string that starts
    with ["eip155:"]; were it [undefined], [parseInt] would read the
    string ["undefined"]. *)
Definition extractChainId (network : string) : option F64 :=
  if prefix "eip155:" network then
    match nth_error (split ":" network) 1 with
    | Some chainId => Some (parseInt10 chainId)
    | None => Some (parseInt10 "undefined")
    end
  else None.

(** [uniqueChainIds]: the chain ids of the requirements, those that
    are [undefined] left out, each kept once. *)
Definition uniqueChainIds (paymentRequirements : option (list PaymentRequirements))
  : list F64 :=
  let chainIds :=
    flat_map (fun req =>
                match extractChainId (or_else (network req) "") with
                | Some id => [id]
                | None => []
                end)
      (match paymentRequirements with Some l => l | None => [] end) in
  Array_from_Set chainIds.

(** One entry of the [contracts] of [useReadContracts]; the [abi] is
    [erc20Abi] throughout and is left out, and a call without [args] has
    the empty list. *)
Record ContractCall : Type := {
  address : string;
  functionName : string;
  args : list (option string);
  chainId : F64
}.

(** The four reads of a token. *)
Definition tokenCalls (userAddress : option string) (asset : string) (chain : F64)
  : list ContractCall :=
  [ {| address := asset; functionName := "name"; args := []; chainId := chain |};
    {| address := asset; functionName := "symbol"; args := []; chainId := chain |};
    {| address := asset; functionName := "decimals"; args := []; chainId := chain |};
    {| address := asset; functionName := "balanceOf"; args := [userAddress];
       chainId := chain |} ].

(** The callback of [flatMap] in [contracts]. *)
Definition callsOf (userAddress : option string) (requirement : PaymentRequirements)
  : list ContractCall :=
  let chain := extractChainId (or_else (network requirement) "") in
  let asset := asset requirement in
  match chain with
  | Some c => if truthyNumber c && truthy asset then tokenCalls userAddress asset c else []
  | None => []
  end.

(** [contracts]: [(paymentRequirements || []).flatMap(...)]. *)
Definition contracts (paymentRequirements : option (list PaymentRequirements))
  (userAddress : option string) : list ContractCall :=
  flat_map (callsOf userAddress)
    (match paymentRequirements with Some l => l | None => [] end).

(** What a read returns: a string for [name] and [symbol], a number for
    [decimals], a bigint for [balanceOf]. *)
Inductive TokenValue : Type :=
| TextValue (s : string)
| NumberValue (n : N)
| BigIntValue (z : Z).

(** One entry of [useReadContracts().data]. *)
Inductive TokenRead : Type :=
| ReadSuccess (result : TokenValue)
| ReadFailure (error : Thrown).

(** [r?.status === "success" ? r.result : undefined] *)
Definition successResult (r : option TokenRead) : option TokenValue :=
  match r with
  | Some (ReadSuccess result) => Some result
  | _ => None
  end.

Record TokenInfo : Type := {
  name : option TokenValue;
  symbol : option TokenValue;
  decimals : option TokenValue;
  balance : option string
}.

Section TokenData.
(** [formatUnits(value, decimals)]. *)
Variable formatUnits : TokenValue -> TokenValue -> Completion string.

(** [getTokenInfo(requirement, index)]; the requirement is not read. *)
Definition getTokenInfo (tokenData : option (list TokenRead)) (index : nat) : TokenInfo :=
  match tokenData with
  | None | Some [] =>
      {| name := None; symbol := None; decimals := None; balance := None |}
  | Some data =>
      let baseIndex := (index * 4)%nat in
      let nameResult := nth_error data baseIndex in
      let symbolResult := nth_error data (baseIndex + 1) in
      let decimalsResult := nth_error data (baseIndex + 2) in
      let balanceResult := nth_error data (baseIndex + 3) in
      let decimals := successResult decimalsResult in
      let balanceRaw := successResult balanceResult in
      {| name := successResult nameResult;
         symbol := successResult symbolResult;
         decimals := decimals;
         balance :=
           match balanceRaw, decimals with
           | Some b, Some d =>
               match formatUnits b d with
               | inr formatted => Some formatted
               | inl _ => None
               end
           | _, _ => None
           end |}
  end.

(** [requirement.value || requirement.amount || "0"] *)
Definition shownAmountOf (requirement : PaymentRequirements) : string :=
  or_else (match value requirement with Some v => v | None => "" end)
    (or_else (amount requirement) "0").

End TokenData.

End Component.

(* ================================================================= *)
(** ** The pages: app/payment/builder/page and the stream page *)

Module Pages.
Import Js X402 Host Builtins.
Import Hook.
Local Open Scope string_scope.
Local Open Scope task_scope.

(** The effect that selects the first option once requirements are
    loaded: the selection after it has run. *)
Definition autoSelect (paymentRequirements : option (list PaymentRequirements))
  (selectedRequirement : option PaymentRequirements) : option PaymentRequirements :=
  match paymentRequirements, selectedRequirement with
  | Some (first :: _), None => Some first
  | _, _ => selectedRequirement
  end.

(** The callbacks [handlePayment] passes to [pay]: [onSuccess] grants
    access and logs, [onError] logs; there is no [onSettled]. *)
Definition pageCallbacks : PayCallbacks :=
  {| onSuccess := Some (fun _ _ => inr tt);
     onError := Some (fun _ _ => inr tt);
     onSettled := None |}.

(** [hasAccessToStream] of the store after a run of effects: the call
    of the page's [onSuccess] is [setHasAccessToStream(true)], and
    nothing else in the pages writes the flag. *)
Definition grant (hasAccessToStream : bool) (e : Effect) : bool :=
  match e with
  | CallOnSuccess _ _ => true
  | _ => hasAccessToStream
  end.

Definition hasAccessAfter (hasAccessToStream : bool) (effects : list Effect) : bool :=
  fold_left grant effects hasAccessToStream.

Section HandlePayment.
Variable JsNumber : Type.
Variable SettleResponse : Type.
Variable decodePaymentResponseHeader : string -> Completion SettleResponse.
Variable fetchWithPayment :
  SelectPaymentRequirements JsNumber -> ClientEvmSigner -> string
  -> Completion Fetch.Response.
Variable walletClient : option WalletClient.

(** [pay] of [useX402Payment("/api/stream/access")]. *)
Definition pay := Hook.pay decodePaymentResponseHeader fetchWithPayment
                    "/api/stream/access" walletClient.

(** [handlePayment]: resolves with the data, or with [undefined]. *)
Definition handlePayment (selectedRequirement : option PaymentRequirements)
  : Task (option Json) :=
  match selectedRequirement with
  | None =>
      emit (ConsoleError "Please select a payment option") ;;
      done None
  | Some requirement =>
      tryCatch
        (let selector := Selectors.createSelectByRequirement requirement in
         data <- pay (Some selector) (Some pageCallbacks) ;;
         done (Some data))
        (fun err =>
           emit (ConsoleError "Payment failed:") ;;
           done None)
  end.

End HandlePayment.

(** [network.match(/^eip155:(\d+)$/)]: the digits captured. *)
Definition matchEip155 (network : string) : option string :=
  if prefix "eip155:" network then
    let digits := substring 7 (String.length network - 7) network in
    if truthy digits && allDigits digits then Some digits else None
  else None.


End Pages.

(* ================================================================= *)
(** ** More vocabulary *)

Module Observations.
Import Js X402 Hook.

(** Effects that set nothing of the hook's state: the console and the
    calls of callbacks. *)
Definition quiet (effects : list Effect) : Prop :=
  Forall (fun e => forall s, apply s e = s) effects.

(** No effect of the run sets the payment requirements. *)
Definition keepsRequirements (effects : list Effect) : Prop :=
  Forall (fun e => forall s, paymentRequirements (apply s e) = paymentRequirements s)
    effects.

(** No effect of the run sets status, error or result. *)
Definition keepsPayment (effects : list Effect) : Prop :=
  Forall (fun e => forall s, status (apply s e) = status s
                             /\ error (apply s e) = error s
                             /\ result (apply s e) = result s)
    effects.


End Observations.

Arguments Pages.pay {JsNumber SettleResponse} decodePaymentResponseHeader
  fetchWithPayment walletClient paymentRequiredSelector callbacks.
Arguments Pages.handlePayment {JsNumber SettleResponse} decodePaymentResponseHeader
  fetchWithPayment walletClient selectedRequirement.

(* ================================================================= *)
(** ** More to run the program on *)

Module Scenarios.
Import Js X402.
Local Open Scope string_scope.

(** A wallet client that is connected without an account. *)
Definition walletWithoutAccount : Hook.WalletClient :=
  {| Hook.account := None;
     Hook.wallet_signTypedData := fun message => inr ("signed:" ++ message) |}.





(** An offer on a network that is not an EVM chain, before one that
    is. *)
Definition mixedOffers : list PaymentRequirements :=
  [Demo.requirement "solana:mainnet" "40"; Demo.requirement "eip155:10" "50"].

(** [formatUnits] on what the reads of the component return. *)
Definition formatUnits (value decimals : Component.TokenValue) : Completion string :=
  match value, decimals with
  | Component.BigIntValue v, Component.NumberValue d =>
      ret (Host.formatUnits_bigint v (N.to_nat d))
  | _, _ => throw (ErrorObj "formatUnits: unexpected argument types")
  end.

(** Chains on which every asset is a token of 6 decimals, of which
    every address holds 2.5. *)
Definition read (call : Component.ContractCall) : Component.TokenRead :=
  if String.eqb (Component.functionName call) "name"
  then Component.ReadSuccess (Component.TextValue "USD Coin")
  else if String.eqb (Component.functionName call) "symbol"
  then Component.ReadSuccess (Component.TextValue "USDC")
  else if String.eqb (Component.functionName call) "decimals"
  then Component.ReadSuccess (Component.NumberValue 6)
  else if String.eqb (Component.functionName call) "balanceOf"
  then Component.ReadSuccess (Component.BigIntValue 2500000)
  else Component.ReadFailure (ErrorObj "unknown function").

End Scenarios.

(* ################################################################# *)
(** * Part II: properties *)

(* ================================================================= *)
(** ** The selectors *)

Section SelectorProperties.
Import Js X402 Selectors Spec.

Variable JsNumber : Type.
Variable NumberToString : JsNumber -> string.
Variable BigInt : string -> Completion Z.

Local Notation amountIs := (Spec.amountIs BigInt).
Local Notation integerAmount := (Spec.integerAmount BigInt).
Local Notation cheaper := (Spec.cheaper BigInt).
Local Notation notDearer := (Spec.notDearer BigInt).
Local Notation compareAmount := (Selectors.compareAmount BigInt).

Lemma amountIs_unique (r : PaymentRequirements) (z z' : Z) :
  amountIs r z -> amountIs r z' -> z = z'.
Proof. unfold Spec.amountIs. congruence. Qed.

(** On integer amounts the comparator returns, and is positive exactly
    when its first argument is the dearer one. *)
Lemma compareAmount_integer (a b : PaymentRequirements) (za zb : Z) :
  amountIs a za -> amountIs b zb ->
  exists c, compareAmount a b = inr c /\ ((0 <? c)%Z = (zb <? za)%Z).
Proof.
  unfold Spec.amountIs, Selectors.compareAmount. intros -> ->. simpl.
  destruct (Z.ltb_spec za zb) as [Hlt | Hge].
  - exists (-1)%Z. split; [reflexivity |].
    symmetry. apply Z.ltb_ge. lia.
  - rewrite Z.gtb_ltb. destruct (Z.ltb_spec zb za) as [Hgt | Hle].
    + exists 1%Z. split; reflexivity.
    + exists 0%Z. split; reflexivity.
Qed.

Lemma sort_insert_total (x : PaymentRequirements) (s : list PaymentRequirements) :
  integerAmount x -> Forall integerAmount s ->
  exists s', sort_insert compareAmount x s = inr s'.
Proof.
  intros [zx Hx] Hs. induction Hs as [| y rest [zy Hy] Hrest IH].
  - exists [x]. reflexivity.
  - simpl. destruct (compareAmount_integer x y zx zy Hx Hy) as (c & -> & _).
    simpl. destruct (0 <? c)%Z.
    + destruct IH as [r ->]. eexists. reflexivity.
    + eexists. reflexivity.
Qed.

(** Inserting [x] in front of a sorted [y :: rest]: the new head is [y]
    when [y] is strictly cheaper, and [x] otherwise. *)
Lemma sort_insert_head (x y : PaymentRequirements) (rest : list PaymentRequirements)
  (zx zy : Z) :
  amountIs x zx -> amountIs y zy -> Forall integerAmount rest ->
  exists tail,
    sort_insert compareAmount x (y :: rest)
    = inr ((if (zy <? zx)%Z then y else x) :: tail).
Proof.
  intros Hx Hy Hrest. simpl.
  destruct (compareAmount_integer x y zx zy Hx Hy) as (c & -> & Hc).
  simpl. rewrite Hc. destruct (zy <? zx)%Z.
  - destruct (sort_insert_total x rest (ex_intro _ zx Hx) Hrest) as [r ->].
    exists r. reflexivity.
  - exists (y :: rest). reflexivity.
Qed.

Lemma sort_insert_integer (x : PaymentRequirements) (s s' : list PaymentRequirements) :
  integerAmount x -> Forall integerAmount s ->
  sort_insert compareAmount x s = inr s' -> Forall integerAmount s'.
Proof.
  intros Hx Hs. revert s'.
  induction Hs as [| y rest Hy Hrest IH]; intros s'; simpl.
  - intros [= <-]. auto.
  - destruct (compareAmount x y) as [e | c]; simpl; [discriminate |].
    destruct (0 <? c)%Z.
    + destruct (sort_insert compareAmount x rest) as [e | r]; simpl; [discriminate |].
      intros [= <-]. constructor; [assumption | apply IH; reflexivity].
    + intros [= <-]. auto.
Qed.

(** Sorting keeps the length, so [sorted[0]] exists for a non-empty
    array. *)
Lemma sort_insert_length {A : Type} (compareFn : A -> A -> Completion Z)
  (x : A) (s s' : list A) :
  sort_insert compareFn x s = inr s' -> length s' = S (length s).
Proof.
  revert s'. induction s as [| y rest IH]; intros s'; simpl.
  - intros [= <-]. reflexivity.
  - destruct (compareFn x y) as [e | c]; simpl; [discriminate |].
    destruct (0 <? c)%Z.
    + destruct (sort_insert compareFn x rest) as [e | r]; simpl; [discriminate |].
      intros [= <-]. simpl. rewrite (IH r eq_refl). reflexivity.
    + intros [= <-]. reflexivity.
Qed.

Lemma Array_sort_length {A : Type} (compareFn : A -> A -> Completion Z)
  (l s : list A) :
  Array_sort compareFn l = inr s -> length s = length l.
Proof.
  revert s. induction l as [| x rest IH]; intros s; simpl.
  - intros [= <-]. reflexivity.
  - destruct (Array_sort compareFn rest) as [e | r]; simpl; [discriminate |].
    intros Hins. rewrite (sort_insert_length _ _ _ _ Hins), (IH r eq_refl).
    reflexivity.
Qed.

(** The head of the sorted array is the earliest element of least
    amount. *)
Lemma Array_sort_head (first : PaymentRequirements) (others : list PaymentRequirements) :
  Forall integerAmount (first :: others) ->
  exists r tail pre post,
    Array_sort compareAmount (first :: others) = inr (r :: tail)
    /\ Forall integerAmount (r :: tail)
    /\ (first :: others = pre ++ r :: post)%list
    /\ Forall (cheaper r) pre
    /\ Forall (notDearer r) post.
Proof.
  revert first. induction others as [| second others IH]; intros first Hall.
  - exists first, [], [], []. simpl. repeat split; auto.
  - inversion Hall as [| ? ? [zf Hf] Hothers]; subst.
    destruct (IH second Hothers) as (r & tail & pre & post & Hsort & Hint & Hsplit & Hpre & Hpost).
    inversion Hint as [| ? ? [zr Hr] Htail]; subst.
    destruct (sort_insert_head first r tail zf zr Hf Hr Htail) as [tail' Hins].
    change (Array_sort compareAmount (first :: second :: others))
      with (Js.bind (Array_sort compareAmount (second :: others))
              (fun s => sort_insert compareAmount first s)).
    rewrite Hsort. unfold Js.bind at 1. rewrite Hins.
    assert (Hint' : Forall integerAmount ((if (zr <? zf)%Z then r else first) :: tail')).
    { eapply sort_insert_integer; [exists zf; exact Hf | exact Hint | exact Hins]. }
    destruct (Z.ltb_spec zr zf) as [Hlt | Hge].
    + exists r, tail', (first :: pre), post. repeat split; auto.
      * rewrite Hsplit. reflexivity.
      * constructor; [| assumption]. exists zr, zf. auto.
    + exists first, tail', [], (second :: others). repeat split; auto.
      rewrite Hsplit. apply Forall_app. split.
      * eapply Forall_impl; [| exact Hpre].
        intros x (zr' & zx & Hr' & Hx & Hlt).
        rewrite (amountIs_unique r zr' zr Hr' Hr) in Hlt.
        exists zf, zx. repeat split; auto. lia.
      * constructor.
        -- exists zf, zr. repeat split; auto.
        -- eapply Forall_impl; [| exact Hpost].
           intros x (zr' & zx & Hr' & Hx & Hle).
           rewrite (amountIs_unique r zr' zr Hr' Hr) in Hle.
           exists zf, zx. repeat split; auto. lia.
Qed.

(** C3.  For every non-empty list of payment requirements whose amounts
    are integer literals, the cheapest selector returns an element [r]
    of the list such that every element before [r] costs strictly more
    and every element after [r] costs at least as much, amounts being
    compared as arbitrary-precision integers: the element of minimal
    amount, and among several of them the earliest in list order. *)
Theorem selectCheapestOption_earliest_minimum
  (version : JsNumber) (accepts : list PaymentRequirements) :
  accepts <> [] ->
  Forall integerAmount accepts ->
  exists r pre post,
    selectCheapestOption BigInt version (Some accepts) = inr r
    /\ (accepts = pre ++ r :: post)%list
    /\ Forall (cheaper r) pre
    /\ Forall (notDearer r) post.
Proof.
  intros Hne Hall. destruct accepts as [| first others]; [congruence |].
  destruct (Array_sort_head first others Hall)
    as (r & tail & pre & post & Hsort & _ & Hsplit & Hpre & Hpost).
  exists r, pre, post. unfold selectCheapestOption.
  rewrite Hsort. simpl. auto.
Qed.

Lemma compareAmount_throws (a b : PaymentRequirements) (e : Thrown) :
  compareAmount a b = inl e ->
  BigInt (amount a) = inl e \/ BigInt (amount b) = inl e.
Proof.
  unfold Selectors.compareAmount.
  destruct (BigInt (amount a)) as [ea | za]; simpl.
  - intros [= ->]. auto.
  - destruct (BigInt (amount b)) as [eb | zb]; simpl.
    + intros [= ->]. auto.
    + destruct (za <? zb)%Z; [discriminate |].
      destruct (za >? zb)%Z; discriminate.
Qed.

Lemma sort_insert_In (x : PaymentRequirements) (s s' : list PaymentRequirements) :
  sort_insert compareAmount x s = inr s' ->
  forall y, In y s' -> In y (x :: s).
Proof.
  revert s'. induction s as [| z rest IH]; intros s'; simpl.
  - intros [= <-] y Hy. exact Hy.
  - destruct (compareAmount x z) as [e | c]; simpl; [discriminate |].
    destruct (0 <? c)%Z.
    + destruct (sort_insert compareAmount x rest) as [e | r]; simpl; [discriminate |].
      intros [= <-] y [<- | Hy]; [auto |].
      destruct (IH r eq_refl y Hy) as [<- | Hrest]; auto.
    + intros [= <-] y Hy. exact Hy.
Qed.

Lemma sort_insert_throws (x : PaymentRequirements) (s : list PaymentRequirements)
  (e : Thrown) :
  sort_insert compareAmount x s = inl e ->
  exists y, In y (x :: s) /\ BigInt (amount y) = inl e.
Proof.
  induction s as [| z rest IH]; simpl; [discriminate |].
  destruct (compareAmount x z) as [e' | c] eqn:Hcmp; simpl.
  - intros [= ->].
    destruct (compareAmount_throws x z e Hcmp) as [H | H]; eauto.
  - destruct (0 <? c)%Z; [| discriminate].
    destruct (sort_insert compareAmount x rest) as [e' | r]; simpl; [| discriminate].
    intros [= ->]. destruct (IH eq_refl) as (y & [<- | Hy] & He); eauto.
Qed.

(** The selector throws only what [BigInt] throws on the amount of one
    of the offers. *)
Lemma Array_sort_throws (l : list PaymentRequirements) (e : Thrown) :
  Array_sort compareAmount l = inl e ->
  exists y, In y l /\ BigInt (amount y) = inl e.
Proof.
  induction l as [| x rest IH]; simpl; [discriminate |].
  destruct (Array_sort compareAmount rest) as [e' | s] eqn:Hsort; simpl.
  - intros [= ->]. destruct (IH eq_refl) as (y & Hy & He). eauto.
  - intros Hins. destruct (sort_insert_throws x s e Hins) as (y & [<- | Hy] & He);
      [eauto |].
    exists y. split; [| exact He]. right.
    clear - Hsort Hy. revert s Hsort y Hy.
    induction rest as [| z rest' IHr]; intros s Hsort y Hy; simpl in Hsort.
    + injection Hsort as <-. exact Hy.
    + destruct (Array_sort compareAmount rest') as [e' | s0]; simpl in Hsort;
        [discriminate |].
      destruct (sort_insert_In z s0 s Hsort y Hy) as [<- | Hin]; [left; reflexivity |].
      right. exact (IHr s0 eq_refl y Hin).
Qed.

Lemma selectCheapestOption_throws (version : JsNumber)
  (accepts : list PaymentRequirements) (e : Thrown) :
  accepts <> [] ->
  selectCheapestOption BigInt version (Some accepts) = inl e ->
  exists y, In y accepts /\ BigInt (amount y) = inl e.
Proof.
  intros Hne. destruct accepts as [| first others]; [congruence |].
  unfold selectCheapestOption.
  destruct (Array_sort compareAmount (first :: others)) as [e' | s] eqn:Hsort;
    simpl; [| discriminate].
  intros [= ->]. exact (Array_sort_throws _ e Hsort).
Qed.

(** [find] returns the first element that satisfies the test. *)
Lemma find_firstWith {A : Type} (p : A -> bool) (P : A -> Prop) (l : list A) (r : A) :
  (forall x, p x = true <-> P x) ->
  firstWith P l r -> find p l = Some r.
Proof.
  intros Hp (pre & post & -> & Hr & Hpre).
  induction Hpre as [| x pre Hx Hpre IH]; simpl.
  - apply Hp in Hr. rewrite Hr. reflexivity.
  - destruct (p x) eqn:Hpx.
    + apply Hp in Hpx. contradiction.
    + exact IH.
Qed.

Lemma find_no_match {A : Type} (p : A -> bool) (P : A -> Prop) (l : list A) :
  (forall x, p x = true <-> P x) ->
  Forall (fun x => ~ P x) l -> find p l = None.
Proof.
  intros Hp Hall. induction Hall as [| x l Hx Hall IH]; simpl.
  - reflexivity.
  - destruct (p x) eqn:Hpx.
    + apply Hp in Hpx. contradiction.
    + exact IH.
Qed.

Lemma sameKeyProperties_keyTuple (R x : PaymentRequirements) :
  sameKeyProperties R x = true <-> keyTuple x = keyTuple R.
Proof.
  unfold sameKeyProperties, keyTuple.
  rewrite !andb_true_iff, !String.eqb_eq. split.
  - intros [[[-> ->] ->] ->]. reflexivity.
  - intros [= -> -> -> ->]. auto.
Qed.

(** C4.  On a non-empty list the first-option selector returns the head
    of the list; on the empty list each of the four selectors fails with
    the no-options error. *)
Theorem selectors_head_and_empty_list (version : JsNumber) :
  (forall first others,
     selectFirstOption version (Some (first :: others)) = inr first)
  /\ selectFirstOption version (Some []) = inl NoOptionsAvailable
  /\ selectCheapestOption BigInt version (Some []) = inl NoOptionsAvailable
  /\ (forall chainId,
        createSelectForCurrentNetwork NumberToString chainId version (Some [])
        = inl NoOptionsAvailable)
  /\ (forall selectedRequirement,
        createSelectByRequirement selectedRequirement version (Some [])
        = inl NoOptionsAvailable).
Proof. repeat split. Qed.

(** C5.  On a non-empty list the by-exact-requirement selector returns
    the first element whose (network, asset, amount, payTo) tuple is that
    of the pinned requirement, whatever its other fields, and fails with
    the no-match error when no element has that tuple. *)
Theorem createSelectByRequirement_first_match
  (selectedRequirement : PaymentRequirements) (version : JsNumber)
  (accepts : list PaymentRequirements) :
  accepts <> [] ->
  (forall r,
     firstWith (fun x => keyTuple x = keyTuple selectedRequirement) accepts r ->
     createSelectByRequirement selectedRequirement version (Some accepts) = inr r)
  /\ (Forall (fun x => keyTuple x <> keyTuple selectedRequirement) accepts ->
      createSelectByRequirement selectedRequirement version (Some accepts)
      = inl NoMatchForRequirement).
Proof.
  intros Hne. destruct accepts as [| first others]; [congruence |].
  unfold createSelectByRequirement. split.
  - intros r Hr.
    rewrite (find_firstWith _ _ _ r (sameKeyProperties_keyTuple selectedRequirement) Hr).
    reflexivity.
  - intros Hnone.
    rewrite (find_no_match _ _ _ (sameKeyProperties_keyTuple selectedRequirement) Hnone).
    reflexivity.
Qed.

(** C7.  On a non-empty list the by-network selector for [chainId]
    returns the first element whose network identifier is the string
    [eip155:<chainId>], and fails with the no-match error for that
    network when no element has that identifier. *)
Theorem createSelectForCurrentNetwork_first_match
  (chainId version : JsNumber) (accepts : list PaymentRequirements) :
  accepts <> [] ->
  (forall r,
     firstWith (fun x => network x = eip155 NumberToString chainId) accepts r ->
     createSelectForCurrentNetwork NumberToString chainId version (Some accepts) = inr r)
  /\ (Forall (fun x => network x <> eip155 NumberToString chainId) accepts ->
      createSelectForCurrentNetwork NumberToString chainId version (Some accepts)
      = inl (NoMatchForNetwork NumberToString chainId)).
Proof.
  intros Hne. destruct accepts as [| first others]; [congruence |].
  unfold createSelectForCurrentNetwork.
  assert (Hp : forall x, String.eqb (network x) (eip155 NumberToString chainId) = true
                         <-> network x = eip155 NumberToString chainId)
    by (intros x; apply String.eqb_eq).
  split.
  - intros r Hr. rewrite (find_firstWith _ _ _ r Hp Hr). reflexivity.
  - intros Hnone. rewrite (find_no_match _ _ _ Hp Hnone). reflexivity.
Qed.

End SelectorProperties.

(* ================================================================= *)
(** ** The hook *)

Section TaskLaws.
Import Js Hook.

Lemma andThen_rejected {A B : Type} (effects : list Effect) (e : Thrown)
  (k : A -> Task B) :
  andThen (effects, inl e) k = (effects, inl e).
Proof. reflexivity. Qed.

Lemma andThen_resolved {A B : Type} (effects : list Effect) (a : A)
  (k : A -> Task B) :
  andThen (effects, inr a) k = ((effects ++ fst (k a))%list, snd (k a)).
Proof. simpl. destruct (k a). reflexivity. Qed.

Lemma tryCatch_rejected {A : Type} (effects : list Effect) (e : Thrown)
  (handler : Thrown -> Task A) :
  tryCatch (effects, inl e) handler
  = ((effects ++ fst (handler e))%list, snd (handler e)).
Proof. simpl. destruct (handler e). reflexivity. Qed.

Lemma tryCatch_resolved {A : Type} (effects : list Effect) (a : A)
  (handler : Thrown -> Task A) :
  tryCatch (effects, inr a) handler = (effects, inr a).
Proof. reflexivity. Qed.

(** A sequence fails in its first part or, that part done, in the rest. *)
Lemma andThen_inl_inv {A B : Type} (t : Task A) (k : A -> Task B)
  (effects : list Effect) (e : Thrown) :
  andThen t k = (effects, inl e) ->
  t = (effects, inl e)
  \/ exists a effects1 effects2,
       t = (effects1, inr a) /\ k a = (effects2, inl e)
       /\ effects = (effects1 ++ effects2)%list.
Proof.
  destruct t as [effects1 [e1 | a]]; simpl.
  - intros [= <- <-]. left. reflexivity.
  - destruct (k a) as [effects2 r] eqn:Hk. intros [= <- ->].
    right. exists a, effects1, effects2. auto.
Qed.

Lemma after_app (s : HookState) (l1 l2 : list Effect) :
  after s (l1 ++ l2) = after (after s l1) l2.
Proof. apply fold_left_app. Qed.

End TaskLaws.

Section HookProperties.
Import Js X402 Hook Spec.
Local Open Scope string_scope.

Variable JsNumber : Type.
Variable SettleResponse : Type.
Variable decodePaymentResponseHeader : string -> Completion SettleResponse.
Variable fetchWithPayment :
  SelectPaymentRequirements JsNumber -> ClientEvmSigner -> string
  -> Completion Fetch.Response.
Variable hook_url : string.

Local Notation pay := (Hook.pay decodePaymentResponseHeader fetchWithPayment hook_url).
Local Notation pay_body :=
  (Hook.pay_body decodePaymentResponseHeader fetchWithPayment hook_url).
Local Notation logPaymentResponse :=
  (Hook.logPaymentResponse decodePaymentResponseHeader).
Local Notation variables := {| url := hook_url |}.

(** Calling a callback sets nothing. *)
Lemma after_callOf {F : Type} (s : HookState) (callbacks : option PayCallbacks)
  (field : PayCallbacks -> option F) (call : Effect) :
  (forall st, apply st call = st) ->
  after s (callOf callbacks field call) = s.
Proof.
  intros Hcall. unfold callOf.
  destruct callbacks as [cbs |]; [destruct (field cbs) |]; simpl; auto.
Qed.

(** The [catch] clause, with callbacks that return normally. *)
Lemma pay_catch_returnNormally (callbacks : option PayCallbacks) (err : Thrown) :
  returnNormally callbacks ->
  pay_catch callbacks variables err
  = ([SetError (Some (errorMessage err)); SetStatus Status.error]
       ++ callOf callbacks onError (CallOnError err variables)
       ++ callOf callbacks onSettled (CallOnSettled None (Some err) variables),
     inl err)%list.
Proof.
  unfold pay_catch, returnNormally, callOf, whenProvided.
  destruct callbacks as [cbs |]; [| reflexivity].
  intros (_ & HonError & HonSettled).
  destruct (onError cbs) as [fe |]; destruct (onSettled cbs) as [fs |]; simpl;
    try rewrite (HonError fe eq_refl); try rewrite (HonSettled fs eq_refl);
    reflexivity.
Qed.

(** The end of the [try] block, with callbacks that return normally. *)
Lemma succeed_returnNormally (callbacks : option PayCallbacks) (data : Json) :
  returnNormally callbacks ->
  succeed callbacks variables data
  = ([SetResult data; SetStatus success]
       ++ callOf callbacks onSuccess (CallOnSuccess data variables)
       ++ callOf callbacks onSettled (CallOnSettled (Some data) None variables),
     inr data)%list.
Proof.
  unfold succeed, returnNormally, callOf, whenProvided.
  destruct callbacks as [cbs |]; [| reflexivity].
  intros (HonSuccess & _ & HonSettled).
  destruct (onSuccess cbs) as [fs |]; destruct (onSettled cbs) as [ft |]; simpl;
    try rewrite (HonSuccess fs eq_refl); try rewrite (HonSettled ft eq_refl);
    reflexivity.
Qed.

(** The settlement step logs once or not at all, and fails only before
    logging. *)
Lemma logPaymentResponse_cases (response : Fetch.Response) :
  logPaymentResponse response = ([], inr tt)
  \/ logPaymentResponse response = ([ConsoleLog "Payment details:"], inr tt)
  \/ exists e, logPaymentResponse response = ([], inl e).
Proof.
  unfold Hook.logPaymentResponse.
  destruct (Fetch.headers_get response "PAYMENT-RESPONSE") as [[| c rest] |]; auto.
  destruct (decodePaymentResponseHeader (String c rest)) as [e | decoded].
  - right. right. exists e. reflexivity.
  - right. left. reflexivity.
Qed.

(** With callbacks that return normally, a [try] block that fails has
    logged at most the decoded settlement. *)
Lemma pay_body_rejects (wc : WalletClient)
  (paymentRequiredSelector : option (SelectPaymentRequirements JsNumber))
  (callbacks : option PayCallbacks) (effects : list Effect) (err : Thrown) :
  returnNormally callbacks ->
  pay_body wc paymentRequiredSelector callbacks variables = (effects, inl err) ->
  effects = [] \/ effects = [ConsoleLog "Payment details:"].
Proof.
  intros Hcbs H. unfold Hook.pay_body, await in H.
  apply andThen_inl_inv in H as [[= <- _] | (signer & l1 & l2 & [= <- _] & H & ->)];
    [auto |].
  cbv zeta in H.
  apply andThen_inl_inv in H as [[= <- _] | (response & l1 & l3 & [= <- _] & H & ->)];
    [auto |].
  apply andThen_inl_inv in H as [Hlog | ([] & log & l4 & Hlog & H & ->)].
  { destruct (logPaymentResponse_cases response) as [Hc | [Hc | [e Hc]]];
      rewrite Hc in Hlog; injection Hlog as <-; auto; discriminate. }
  assert (l4 = []) as ->.
  { apply andThen_inl_inv in H as [[= <- _] | (data & l1 & l5 & [= <- _] & H & ->)];
      [reflexivity |].
    apply andThen_inl_inv in H as [Hok | ([] & l6 & l7 & Hok & H & ->)].
    - unfold requireOk in Hok. destruct (Fetch.ok response); [discriminate |].
      injection Hok as <-. reflexivity.
    - rewrite (succeed_returnNormally callbacks data Hcbs) in H. discriminate. }
  simpl. rewrite app_nil_r.
  destruct (logPaymentResponse_cases response) as [Hc | [Hc | [e Hc]]];
    rewrite Hc in Hlog; injection Hlog as <-; auto; discriminate.
Qed.

(** [pay] with a wallet client: the two setters, then the guarded block. *)
Lemma pay_with_wallet (wc : WalletClient)
  (paymentRequiredSelector : option (SelectPaymentRequirements JsNumber))
  (callbacks : option PayCallbacks) :
  pay (Some wc) paymentRequiredSelector callbacks
  = let guarded := tryCatch (pay_body wc paymentRequiredSelector callbacks variables)
                     (pay_catch callbacks variables) in
    (SetStatus paying :: SetError None :: fst guarded, snd guarded).
Proof.
  unfold Hook.pay, emit. rewrite !andThen_resolved. cbv zeta.
  destruct (tryCatch _ _) as [effects r]. reflexivity.
Qed.

(** The state after the [catch] clause. *)
Lemma after_catch (s : HookState) (before : list Effect)
  (callbacks : option PayCallbacks) (err : Thrown) :
  let s' := after s
    (before ++ [SetError (Some (errorMessage err)); SetStatus Status.error]
       ++ callOf callbacks onError (CallOnError err variables)
       ++ callOf callbacks onSettled (CallOnSettled None (Some err) variables)) in
  status s' = Status.error /\ error s' = Some (errorMessage err)
  /\ result s' = result (after s before).
Proof.
  cbv zeta. rewrite !after_app.
  rewrite !after_callOf by reflexivity.
  repeat split; reflexivity.
Qed.

(** C1 (amended).  Whenever [pay] fails, with callbacks that return
    normally, the status ends as error with the failure's message (or
    "Unknown error occurred" when it carries none) and the failure is
    what [pay] raises.  With a wallet client, the failure is the one of
    the guarded block, and after setting the error the hook calls the
    provided [onError] and then the provided [onSettled], and nothing
    else.  Without a wallet client the two setters are all that
    happens: no callback is called. *)
Theorem pay_failure_handling (walletClient : option WalletClient)
  (paymentRequiredSelector : option (SelectPaymentRequirements JsNumber))
  (callbacks : option PayCallbacks) (err : Thrown) :
  returnNormally callbacks ->
  snd (pay walletClient paymentRequiredSelector callbacks) = inl err ->
  let effects := fst (pay walletClient paymentRequiredSelector callbacks) in
  (forall s, status (after s effects) = Status.error
             /\ error (after s effects) = Some (errorMessage err))
  /\ match walletClient with
     | None =>
         err = NoWalletConnected
         /\ effects = [SetStatus Status.error; SetError (Some (errorMessage err))]
     | Some wc =>
         exists log,
           pay_body wc paymentRequiredSelector callbacks variables = (log, inl err)
           /\ (log = [] \/ log = [ConsoleLog "Payment details:"])
           /\ effects
              = ([SetStatus paying; SetError None] ++ log
                 ++ [SetError (Some (errorMessage err)); SetStatus Status.error]
                 ++ callOf callbacks onError (CallOnError err variables)
                 ++ callOf callbacks onSettled
                      (CallOnSettled None (Some err) variables))%list
     end.
Proof.
  intros Hcbs. destruct walletClient as [wc |].
  - rewrite pay_with_wallet. cbv zeta.
    destruct (pay_body wc paymentRequiredSelector callbacks variables)
      as [log [e | data]] eqn:Hbody.
    + rewrite tryCatch_rejected, (pay_catch_returnNormally callbacks e Hcbs).
      simpl fst. simpl snd. intros [= ->]. split.
      * intros s.
        destruct (after_catch s ([SetStatus paying; SetError None] ++ log) callbacks err)
          as (Hs & He & _).
        split; assumption.
      * exists log. split; [reflexivity |]. split; [| reflexivity].
        exact (pay_body_rejects wc paymentRequiredSelector callbacks log err Hcbs Hbody).
    + rewrite tryCatch_resolved. simpl. discriminate.
  - simpl. intros [= <-]. repeat split.
Qed.

(** C6.  Without a wallet client [pay] fails with the no-wallet error;
    it sets the status to error, and at no point to paying. *)
Theorem pay_without_wallet_client
  (paymentRequiredSelector : option (SelectPaymentRequirements JsNumber))
  (callbacks : option PayCallbacks) :
  let run := pay None paymentRequiredSelector callbacks in
  snd run = inl NoWalletConnected
  /\ ~ In (SetStatus paying) (fst run)
  /\ forall s, status (after s (fst run)) = Status.error.
Proof.
  cbv zeta. simpl. repeat split.
  intros [H | [H | []]]; discriminate.
Qed.

(** C8.  From every state, [reset] leaves the status idle, the error
    and the result cleared, and the payment requirements as they
    were. *)
Theorem reset_clears_status_error_result (s : HookState) :
  let s' := after s (fst reset) in
  snd reset = inr tt
  /\ status s' = idle
  /\ error s' = None
  /\ result s' = JNull
  /\ paymentRequirements s' = paymentRequirements s.
Proof. cbv zeta. repeat split. Qed.

(** C10.  The selector [pay] uses when it is given none agrees with the
    first-option selector on every version and list: the head of a
    non-empty list, and the same no-options error for the empty and for
    the absent list. *)
Theorem default_selector_is_selectFirstOption :
  selectorOrDefault None = @defaultSelector JsNumber
  /\ (forall version accepts,
        @defaultSelector JsNumber version accepts
        = Selectors.selectFirstOption version accepts)
  /\ (forall version first others,
        @defaultSelector JsNumber version (Some (first :: others)) = inr first)
  /\ (forall version,
        @defaultSelector JsNumber version (Some []) = inl Selectors.NoOptionsAvailable
        /\ @defaultSelector JsNumber version None = inl Selectors.NoOptionsAvailable)
  /\ (forall walletClient callbacks,
        pay walletClient None callbacks
        = pay walletClient (Some Selectors.selectFirstOption) callbacks).
Proof. repeat split. Qed.

(** The state after the end of a [try] block that succeeded. *)
Lemma after_succeed (s : HookState) (before : list Effect)
  (callbacks : option PayCallbacks) (data : Json) :
  let s' := after s
    (before ++ [SetResult data; SetStatus success]
       ++ callOf callbacks onSuccess (CallOnSuccess data variables)
       ++ callOf callbacks onSettled (CallOnSettled (Some data) None variables)) in
  status s' = success /\ result s' = data.
Proof.
  cbv zeta. rewrite !after_app.
  rewrite !after_callOf by reflexivity.
  split; reflexivity.
Qed.

(** C2 (amended).  When the wrapped request returns a successful
    response whose body parses, and the callbacks return normally: if
    the response has no (or an empty) PAYMENT-RESPONSE header, or has
    one that decodes, [pay] completes with status success and the parsed
    body as result and return value; if the header fails to decode, the
    decode error is handled as every other failure of the attempt: the
    status ends as error with the decode error's message, no result is
    stored, [onError] and [onSettled] are called, and [pay] raises the
    decode error. *)
Theorem pay_settlement_header (wc : WalletClient)
  (paymentRequiredSelector : option (SelectPaymentRequirements JsNumber))
  (callbacks : option PayCallbacks) (signer : ClientEvmSigner)
  (response : Fetch.Response) (data : Json) :
  returnNormally callbacks ->
  wagmiToClientSigner (extend wc) = inr signer ->
  fetchWithPayment (selectorOrDefault paymentRequiredSelector) signer hook_url
  = inr response ->
  Fetch.ok response = true ->
  Fetch.json response = inr data ->
  let run := pay (Some wc) paymentRequiredSelector callbacks in
  let completes (log : list Effect) :=
    run = (([SetStatus paying; SetError None] ++ log
            ++ [SetResult data; SetStatus success]
            ++ callOf callbacks onSuccess (CallOnSuccess data variables)
            ++ callOf callbacks onSettled (CallOnSettled (Some data) None variables))%list,
           inr data)
    /\ forall s, status (after s (fst run)) = success
                 /\ result (after s (fst run)) = data in
  match Fetch.headers_get response "PAYMENT-RESPONSE" with
  | Some (String c rest) =>
      match decodePaymentResponseHeader (String c rest) with
      | inr _ => completes [ConsoleLog "Payment details:"]
      | inl e =>
          run = (([SetStatus paying; SetError None;
                   SetError (Some (errorMessage e)); SetStatus Status.error]
                  ++ callOf callbacks onError (CallOnError e variables)
                  ++ callOf callbacks onSettled (CallOnSettled None (Some e) variables))%list,
                 inl e)
          /\ forall s, status (after s (fst run)) = Status.error
                       /\ error (after s (fst run)) = Some (errorMessage e)
                       /\ result (after s (fst run)) = result s
      end
  | _ => completes []
  end.
Proof.
  intros Hcbs Hsigner Hfetch Hok Hjson. cbv zeta.
  rewrite pay_with_wallet. cbv zeta.
  assert (Hbody : pay_body wc paymentRequiredSelector callbacks variables
                  = andThen (logPaymentResponse response)
                      (fun _ => succeed callbacks variables data)).
  { unfold Hook.pay_body, await. rewrite Hsigner, andThen_resolved. cbv zeta.
    rewrite Hfetch, andThen_resolved. simpl fst. simpl snd.
    unfold Fetch.clone. rewrite Hjson. unfold requireOk. rewrite Hok.
    destruct (logPaymentResponse response) as [log [e | []]]; [reflexivity |].
    rewrite !andThen_resolved. unfold done.
    rewrite !andThen_resolved. simpl. reflexivity. }
  rewrite Hbody. unfold Hook.logPaymentResponse.
  assert (Hdone : forall log,
    let guarded := tryCatch (andThen (log, inr tt)
                               (fun _ => succeed callbacks variables data))
                     (pay_catch callbacks variables) in
    (SetStatus paying :: SetError None :: fst guarded, snd guarded)
    = (([SetStatus paying; SetError None] ++ log
        ++ [SetResult data; SetStatus success]
        ++ callOf callbacks onSuccess (CallOnSuccess data variables)
        ++ callOf callbacks onSettled (CallOnSettled (Some data) None variables))%list,
       inr data)).
  { intros log. cbv zeta.
    rewrite andThen_resolved, (succeed_returnNormally callbacks data Hcbs).
    cbn [fst snd]. rewrite tryCatch_resolved. reflexivity. }
  destruct (Fetch.headers_get response "PAYMENT-RESPONSE") as [[| c rest] |].
  - unfold done. rewrite (Hdone []). split; [reflexivity |].
    intros s. apply (after_succeed s [SetStatus paying; SetError None]).
  - unfold await. destruct (decodePaymentResponseHeader (String c rest)) as [e | decoded].
    + rewrite !andThen_rejected, tryCatch_rejected.
      rewrite (pay_catch_returnNormally callbacks e Hcbs).
      split; [reflexivity |].
      intros s. simpl fst.
      change (SetStatus paying :: SetError None :: [] ++ ?l)
        with ([SetStatus paying; SetError None] ++ l)%list.
      exact (after_catch s [SetStatus paying; SetError None] callbacks e).
    + change (andThen ([], inr decoded) (fun _ => emit (ConsoleLog "Payment details:")))
        with ([ConsoleLog "Payment details:"], @inr Thrown unit tt).
      rewrite (Hdone [ConsoleLog "Payment details:"]). split; [reflexivity |].
      intros s.
      apply (after_succeed s [SetStatus paying; SetError None; ConsoleLog "Payment details:"]).
  - unfold done. rewrite (Hdone []). split; [reflexivity |].
    intros s. apply (after_succeed s [SetStatus paying; SetError None]).
Qed.

End HookProperties.

(* ================================================================= *)
(** ** The affordability check *)

Section PageProperties.
Import Js X402 Page.

Variable BigInt : string -> Completion Z.
Variable formatUnits : ContractValue -> ContractValue -> Completion string.
Variable Float : Type.
Variable parseFloat : string -> Float.
Variable Float_ge : Float -> Float -> bool.

Local Notation hasSufficientBalance :=
  (Page.hasSufficientBalance BigInt formatUnits parseFloat Float_ge).

(** Whatever the built-ins do: the check answers true when there is no
    selected requirement, no token data or fewer than two entries of it,
    when the decimals or the balance read did not succeed, and when
    [BigInt] or [formatUnits] throws.  Otherwise both reads succeeded and
    both amounts were formatted with the token's decimals, and the
    answer is the comparison [>=] of the two formatted amounts read back
    as numbers by [Number.parseFloat]. *)
Lemma hasSufficientBalance_decision
  (selectedRequirement : option PaymentRequirements)
  (selectedTokenData : option (list ReadResult)) :
  let answer := hasSufficientBalance selectedRequirement selectedTokenData in
  (selectedRequirement = None -> answer = true)
  /\ (selectedTokenData = None -> answer = true)
  /\ (forall data, selectedTokenData = Some data -> (length data < 2)%nat ->
      answer = true)
  /\ (forall data, selectedTokenData = Some data ->
      successResult (nth_error data 0) = None
      \/ successResult (nth_error data 1) = None ->
      answer = true)
  /\ (forall requirement data decimals balanceRaw,
      selectedRequirement = Some requirement ->
      selectedTokenData = Some data ->
      successResult (nth_error data 0) = Some decimals ->
      successResult (nth_error data 1) = Some balanceRaw ->
      match formatUnits balanceRaw decimals, BigInt (requiredAmountOf requirement) with
      | inr balance, inr required =>
          match formatUnits (BigIntValue required) decimals with
          | inr requiredAmountFormatted =>
              answer = Float_ge (parseFloat balance) (parseFloat requiredAmountFormatted)
          | inl _ => answer = true
          end
      | _, _ => answer = true
      end).
Proof.
  cbv zeta. unfold Page.hasSufficientBalance. repeat split.
  - intros ->. reflexivity.
  - intros ->. destruct selectedRequirement; reflexivity.
  - intros data -> Hshort. destruct selectedRequirement; [| reflexivity].
    apply Nat.ltb_lt in Hshort. rewrite Hshort. reflexivity.
  - intros data -> Hfailed. destruct selectedRequirement; [| reflexivity].
    destruct (length data <? 2)%nat; [reflexivity |].
    destruct Hfailed as [-> | H1]; [reflexivity |].
    rewrite H1. destruct (successResult (nth_error data 0)); reflexivity.
  - intros requirement data decimals balanceRaw -> -> Hdecimals Hbalance.
    assert (Hlong : (length data <? 2)%nat = false).
    { apply Nat.ltb_ge. destruct data as [| d0 [| d1 rest]]; simpl in *;
        try discriminate. lia. }
    rewrite Hlong, Hdecimals, Hbalance. unfold compareBalance.
    destruct (formatUnits balanceRaw decimals) as [e | balance]; [reflexivity |].
    simpl Js.bind.
    destruct (BigInt (requiredAmountOf requirement)) as [e | required]; [reflexivity |].
    simpl Js.bind.
    destruct (formatUnits (BigIntValue required) decimals) as [e | formatted];
      reflexivity.
Qed.

End PageProperties.

(* ================================================================= *)
(** ** Rounding to a double *)

Section Rounding.
Import Host.
Local Open Scope Z_scope.

(** Rounding moves to the quotient or to the integer above it. *)
Lemma roundHalfEven_bounds (a b : Z) :
  0 < b -> a / b <= roundHalfEven a b <= a / b + 1.
Proof.
  intros Hb. unfold roundHalfEven.
  destruct (2 * (a mod b) <? b); [lia |].
  destruct (b <? 2 * (a mod b)); [lia |].
  destruct (Z.even (a / b)); lia.
Qed.

(** Integer quotients keep the order of the ratios. *)
Lemma div_cross_le (a1 b1 a2 b2 : Z) :
  0 < b1 -> 0 < b2 -> a1 * b2 <= a2 * b1 -> a1 / b1 <= a2 / b2.
Proof.
  intros Hb1 Hb2 Hle.
  apply Z.div_le_lower_bound; [lia |].
  pose proof (Z.mul_div_le a1 b1 Hb1) as H1.
  assert (b1 * (b2 * (a1 / b1)) <= b1 * a2) by nia.
  nia.
Qed.

(** So does rounding to the nearest integer, ties to even. *)
Lemma roundHalfEven_monotone (a1 b1 a2 b2 : Z) :
  0 < b1 -> 0 < b2 -> a1 * b2 <= a2 * b1 ->
  roundHalfEven a1 b1 <= roundHalfEven a2 b2.
Proof.
  intros Hb1 Hb2 Hle.
  pose proof (div_cross_le a1 b1 a2 b2 Hb1 Hb2 Hle) as Hq.
  pose proof (roundHalfEven_bounds a1 b1 Hb1) as B1.
  pose proof (roundHalfEven_bounds a2 b2 Hb2) as B2.
  destruct (Z.eq_dec (a1 / b1) (a2 / b2)) as [Heq | Hne]; [| lia].
  (* same integer part: compare the remainders *)
  pose proof (Z.div_mod a1 b1 ltac:(lia)) as D1.
  pose proof (Z.div_mod a2 b2 ltac:(lia)) as D2.
  pose proof (Z.mod_pos_bound a1 b1 Hb1) as M1.
  pose proof (Z.mod_pos_bound a2 b2 Hb2) as M2.
  assert (Hr : (a1 mod b1) * b2 <= (a2 mod b2) * b1).
  { rewrite Heq in D1. nia. }
  unfold roundHalfEven. rewrite Heq.
  destruct (Z.ltb_spec (2 * (a1 mod b1)) b1); [
    destruct (2 * (a2 mod b2) <? b2); [lia |];
    destruct (b2 <? 2 * (a2 mod b2)); [lia |];
    destruct (Z.even (a2 / b2)); lia |].
  destruct (Z.ltb_spec b1 (2 * (a1 mod b1))).
  - (* first rounds up: second has fraction > 1/2 too *)
    destruct (Z.ltb_spec (2 * (a2 mod b2)) b2); [nia |].
    destruct (Z.ltb_spec b2 (2 * (a2 mod b2))); [lia | nia].
  - (* first is a tie *)
    destruct (Z.ltb_spec (2 * (a2 mod b2)) b2); [nia |].
    destruct (Z.ltb_spec b2 (2 * (a2 mod b2))); [destruct (Z.even (a2 / b2)); lia |].
    destruct (Z.even (a2 / b2)); lia.
Qed.

Lemma roundRatio_positive (negative : bool) (num den : Z) :
  0 < num ->
  roundRatio negative num den
  = if 2 ^ 2098 <=? significand num den * 2 ^ lastPlace num den
    then F64_inf negative
    else F64_fin negative (Z.to_N (significand num den)) (lastPlace num den - 1074).
Proof.
  intros Hnum. unfold roundRatio.
  destruct (Z.leb_spec num 0); [lia | reflexivity].
Qed.

Lemma lastPlace_nonneg (num den : Z) : 0 <= lastPlace num den.
Proof. unfold lastPlace. lia. Qed.

(** The significand has at most 53 bits, or is [2^53]. *)
Lemma significand_upper (num den : Z) :
  0 < num -> 0 < den -> significand num den <= 2 ^ 53.
Proof.
  intros Hnum Hden. unfold significand.
  set (S := num * 2 ^ 1074). set (s := lastPlace num den).
  assert (Hs : 0 <= s) by apply lastPlace_nonneg.
  assert (Hp : 0 < 2 ^ s) by (apply Z.pow_pos_nonneg; lia).
  pose proof (roundHalfEven_bounds S (den * 2 ^ s) ltac:(nia)) as [_ Hup].
  rewrite <- Z.div_div in Hup by lia.
  assert (HQ : S / den < 2 ^ (s + 53)).
  { destruct (Z.le_gt_cases (S / den) 0) as [Hz | Hposq].
    - assert (0 < 2 ^ (s + 53)) by (apply Z.pow_pos_nonneg; lia). lia.
    - pose proof (Z.log2_spec (S / den) Hposq) as [_ Hlt].
      eapply Z.lt_le_trans; [exact Hlt |].
      apply Z.pow_le_mono_r; [lia |].
      subst s S. unfold lastPlace. lia. }
  assert (S / den / 2 ^ s < 2 ^ 53).
  { apply Z.div_lt_upper_bound; [lia |].
    rewrite <- Z.pow_add_r by lia. exact HQ. }
  lia.
Qed.

(** Above the least exponent the significand has its leading bit. *)
Lemma significand_lower (num den : Z) :
  0 < num -> 0 < den -> 0 < lastPlace num den -> 2 ^ 52 <= significand num den.
Proof.
  intros Hnum Hden Hs. unfold significand.
  set (S := num * 2 ^ 1074) in *. set (s := lastPlace num den) in *.
  assert (Hp : 0 < 2 ^ s) by (apply Z.pow_pos_nonneg; lia).
  pose proof (roundHalfEven_bounds S (den * 2 ^ s) ltac:(nia)) as [Hlow _].
  rewrite <- Z.div_div in Hlow by lia.
  assert (Hlog : s = Z.log2 (S / den) - 52) by (subst s S; unfold lastPlace in Hs |- *; lia).
  assert (Hposq : 0 < S / den).
  { destruct (Z.le_gt_cases (S / den) 0) as [Hz | ]; [| assumption].
    rewrite (Z.log2_nonpos _ Hz) in Hlog. lia. }
  pose proof (Z.log2_spec (S / den) Hposq) as [Hge _].
  assert (2 ^ 52 <= S / den / 2 ^ s).
  { apply Z.div_le_lower_bound; [lia |].
    rewrite <- Z.pow_add_r by lia.
    replace (s + 52) with (Z.log2 (S / den)) by lia. exact Hge. }
  lia.
Qed.

Lemma significand_nonneg (num den : Z) :
  0 < num -> 0 < den -> 0 <= significand num den.
Proof.
  intros Hnum Hden. unfold significand.
  assert (Hp : 0 < 2 ^ lastPlace num den)
    by (apply Z.pow_pos_nonneg; [lia | apply lastPlace_nonneg]).
  pose proof (roundHalfEven_bounds (num * 2 ^ 1074) (den * 2 ^ lastPlace num den)
                ltac:(nia)) as [Hlow _].
  assert (0 <= num * 2 ^ 1074 / (den * 2 ^ lastPlace num den)).
  { apply Z.div_pos; [| nia]. assert (0 < 2 ^ 1074) by (apply Z.pow_pos_nonneg; lia). nia. }
  lia.
Qed.

(** Rounding keeps the order of the ratios. *)
Lemma rounded_value_monotone (n1 d1 n2 d2 : Z) :
  0 < n1 -> 0 < d1 -> 0 < d2 -> n1 * d2 <= n2 * d1 ->
  lastPlace n1 d1 <= lastPlace n2 d2
  /\ significand n1 d1 * 2 ^ lastPlace n1 d1 <= significand n2 d2 * 2 ^ lastPlace n2 d2.
Proof.
  intros Hn1 Hd1 Hd2 Hle.
  assert (Hn2 : 0 < n2) by nia.
  assert (H1074 : 0 < 2 ^ 1074) by (apply Z.pow_pos_nonneg; lia).
  assert (Hs : lastPlace n1 d1 <= lastPlace n2 d2).
  { unfold lastPlace.
    assert (n1 * 2 ^ 1074 / d1 <= n2 * 2 ^ 1074 / d2) by (apply div_cross_le; nia).
    assert (0 <= n1 * 2 ^ 1074 / d1) by (apply Z.div_pos; nia).
    pose proof (Z.log2_le_mono _ _ H). lia. }
  split; [exact Hs |].
  pose proof (lastPlace_nonneg n1 d1) as Hs1.
  assert (Hp1 : 0 < 2 ^ lastPlace n1 d1) by (apply Z.pow_pos_nonneg; lia).
  assert (Hp2 : 0 < 2 ^ lastPlace n2 d2) by (apply Z.pow_pos_nonneg; lia).
  destruct (Z.eq_dec (lastPlace n1 d1) (lastPlace n2 d2)) as [Heq | Hne].
  - assert (significand n1 d1 <= significand n2 d2).
    { unfold significand. rewrite <- Heq.
      apply roundHalfEven_monotone; nia. }
    rewrite <- Heq. nia.
  - pose proof (significand_upper n1 d1 Hn1 Hd1) as Hup.
    pose proof (significand_lower n2 d2 Hn2 Hd2 ltac:(lia)) as Hlow.
    assert (Hstep : 2 ^ 53 * 2 ^ lastPlace n1 d1 <= 2 ^ 52 * 2 ^ lastPlace n2 d2).
    { rewrite <- !Z.pow_add_r by lia. apply Z.pow_le_mono_r; lia. }
    nia.
Qed.

(** The nearest double of the greater ratio is [>=] that of the lesser. *)
Lemma roundRatio_monotone (n1 d1 n2 d2 : Z) :
  0 <= n1 -> 0 < d1 -> 0 < d2 -> n1 * d2 <= n2 * d1 ->
  F64_ge (roundRatio false n2 d2) (roundRatio false n1 d1) = true.
Proof.
  intros Hn1 Hd1 Hd2 Hle.
  assert (Hn2 : 0 <= n2) by nia.
  destruct (Z.eq_dec n1 0) as [-> | Hpos1].
  - (* the lesser ratio is zero *)
    unfold roundRatio at 2. simpl.
    destruct (Z.eq_dec n2 0) as [-> | Hpos2]; [reflexivity |].
    rewrite roundRatio_positive by lia.
    destruct (2 ^ 2098 <=? _); [reflexivity |].
    unfold F64_ge, scaled. apply Z.leb_le.
    pose proof (significand_nonneg n2 d2 ltac:(lia) Hd2).
    rewrite Z2N.id by assumption. simpl Z.of_N.
    assert (0 <= 2 ^ (lastPlace n2 d2 - 1074 - Z.min (lastPlace n2 d2 - 1074) 0))
      by (apply Z.pow_nonneg; lia).
    nia.
  - assert (Hp1 : 0 < n1) by lia. assert (Hp2 : 0 < n2) by nia.
    destruct (rounded_value_monotone n1 d1 n2 d2 Hp1 Hd1 Hd2 Hle) as [Hs Hv].
    rewrite !roundRatio_positive by lia.
    set (s1 := lastPlace n1 d1) in *. set (s2 := lastPlace n2 d2) in *.
    set (m1 := significand n1 d1) in *. set (m2 := significand n2 d2) in *.
    destruct (Z.leb_spec (2 ^ 2098) (m2 * 2 ^ s2));
      [destruct (2 ^ 2098 <=? m1 * 2 ^ s1); reflexivity |].
    destruct (Z.leb_spec (2 ^ 2098) (m1 * 2 ^ s1)); [lia |].
    unfold F64_ge, scaled. apply Z.leb_le.
    pose proof (significand_nonneg n1 d1 Hp1 Hd1).
    pose proof (significand_nonneg n2 d2 Hp2 Hd2).
    fold m1 in H1. fold m2 in H2.
    rewrite !Z2N.id by assumption.
    replace (Z.min (s2 - 1074) (s1 - 1074)) with (s1 - 1074) by lia.
    replace (s1 - 1074 - (s1 - 1074)) with 0 by lia.
    replace (s2 - 1074 - (s1 - 1074)) with (s2 - s1) by lia.
    pose proof (lastPlace_nonneg n1 d1) as Hs1. fold s1 in Hs1.
    assert (Hp : 0 < 2 ^ s1) by (apply Z.pow_pos_nonneg; lia).
    replace (2 ^ s2) with (2 ^ (s2 - s1) * 2 ^ s1) in Hv
      by (rewrite <- Z.pow_add_r by lia; f_equal; lia).
    rewrite Z.pow_0_r. nia.
Qed.

End Rounding.

(* ================================================================= *)
(** ** Formatted amounts read back as numbers *)

Section FormattedAmounts.
Import Js X402 Page Host.
Local Open Scope string_scope.

Lemma digitsFrom_app (acc : N) (s1 s2 : string) :
  digitsFrom 10 acc (s1 ++ s2)
  = match digitsFrom 10 acc s1 with
    | Some a => digitsFrom 10 a s2
    | None => None
    end.
Proof.
  revert acc. induction s1 as [| c rest IH]; intros acc; simpl.
  - reflexivity.
  - destruct (digitValue 10 c); [apply IH | reflexivity].
Qed.

Lemma digitsFrom_allDigits (s : string) (acc : N) :
  allDigits s = true ->
  digitsFrom 10 acc s = Some (acc * 10 ^ N.of_nat (String.length s) + digitsToN s)%N.
Proof.
  revert acc. induction s as [| c rest IH]; intros acc Hs.
  - unfold digitsToN. cbn. f_equal. lia.
  - cbn [allDigits] in Hs. apply andb_true_iff in Hs as [Hc Hrest].
    unfold isDigit in Hc. destruct (digitValue 10 c) as [d |] eqn:Hd; [| discriminate].
    assert (Hval : digitsToN (String c rest)
                   = (d * 10 ^ N.of_nat (String.length rest) + digitsToN rest)%N).
    { unfold digitsToN at 1. cbn [digitsFrom]. rewrite Hd.
      rewrite (IH _ Hrest). reflexivity. }
    rewrite Hval. cbn [digitsFrom String.length]. rewrite Hd, (IH _ Hrest).
    rewrite Nat2N.inj_succ, N.pow_succ_r'. f_equal. lia.
Qed.

Lemma digitsToN_app (s1 s2 : string) :
  allDigits s1 = true -> allDigits s2 = true ->
  digitsToN (s1 ++ s2)
  = (digitsToN s1 * 10 ^ N.of_nat (String.length s2) + digitsToN s2)%N.
Proof.
  intros H1 H2. unfold digitsToN at 1.
  rewrite digitsFrom_app, (digitsFrom_allDigits s1 0 H1).
  rewrite (digitsFrom_allDigits s2 _ H2). lia.
Qed.

Lemma allDigits_app (s1 s2 : string) :
  allDigits (s1 ++ s2) = allDigits s1 && allDigits s2.
Proof.
  induction s1 as [| c rest IH]; simpl; [reflexivity |].
  rewrite IH. apply andb_assoc.
Qed.

Lemma string_length_app (s1 s2 : string) :
  String.length (s1 ++ s2) = (String.length s1 + String.length s2)%nat.
Proof. induction s1; simpl; auto. Qed.

(** The digits Stdlib prints. *)
Lemma allDigits_string_of_uint (u : Decimal.uint) :
  allDigits (NilEmpty.string_of_uint u) = true.
Proof. induction u; simpl; auto. Qed.

Lemma digitsFrom_string_of_uint_acc (u : Decimal.uint) (acc : positive) :
  digitsFrom 10 (Npos acc) (NilEmpty.string_of_uint u)
  = Some (Npos (Pos.of_uint_acc u acc)).
Proof.
  revert acc. induction u; intros acc;
    cbn [NilEmpty.string_of_uint digitsFrom Pos.of_uint_acc]; [reflexivity | ..];
    match goal with
    | |- context [digitValue 10 ?c] =>
        let v := eval vm_compute in (digitValue 10 c) in
        change (digitValue 10 c) with v
    end;
    cbv iota beta; rewrite <- IHu; f_equal; lia.
Qed.

Lemma digitsFrom_string_of_uint (u : Decimal.uint) :
  digitsFrom 10 0 (NilEmpty.string_of_uint u) = Some (N.of_uint u).
Proof.
  induction u; cbn [NilEmpty.string_of_uint digitsFrom N.of_uint Pos.of_uint];
    [reflexivity | ..];
    match goal with
    | |- context [digitValue 10 ?c] =>
        let v := eval vm_compute in (digitValue 10 c) in
        change (digitValue 10 c) with v
    end;
    cbv iota beta; [exact IHu | ..];
    apply digitsFrom_string_of_uint_acc.
Qed.

Lemma decimal_digits (n : N) :
  allDigits (decimal n) = true /\ digitsToN (decimal n) = n /\ decimal n <> "".
Proof.
  unfold decimal, NilZero.string_of_uint.
  assert (Hnil : N.to_uint n <> Decimal.Nil).
  { destruct n; simpl; [discriminate | apply Unsigned.to_uint_nonnil]. }
  destruct (N.to_uint n) as [| u | u | u | u | u | u | u | u | u | u] eqn:Hu;
    [congruence | ..];
    (split; [apply allDigits_string_of_uint |]);
    (split; [| discriminate]);
    unfold digitsToN; rewrite digitsFrom_string_of_uint, <- Hu;
    apply DecimalN.Unsigned.of_to.
Qed.

Lemma takeDigits_app (s tail : string) :
  allDigits s = true -> noDigitAhead tail ->
  takeDigits (s ++ tail) = (s, tail).
Proof.
  intros Hs Htail. induction s as [| c rest IH].
  - destruct tail as [| c t]; [reflexivity |].
    simpl in Htail. unfold isDigit in Htail. cbn [append takeDigits].
    destruct (digitValue 10 c); [discriminate | reflexivity].
  - cbn [allDigits] in Hs. apply andb_true_iff in Hs as [Hc Hrest].
    unfold isDigit in Hc. cbn [append takeDigits].
    destruct (digitValue 10 c); [| discriminate].
    rewrite (IH Hrest). reflexivity.
Qed.

Lemma substring_whole (t : string) : substring 0 (String.length t) t = t.
Proof. induction t as [| a t' IHt]; [reflexivity |]. simpl. rewrite IHt. reflexivity. Qed.

Lemma substring_none (t : string) : substring 0 0 t = "".
Proof. destruct t; reflexivity. Qed.

Lemma substring_split (s : string) (k : nat) :
  (k <= String.length s)%nat ->
  substring 0 k s ++ substring k (String.length s - k) s = s
  /\ String.length (substring k (String.length s - k) s) = (String.length s - k)%nat.
Proof.
  revert k. induction s as [| c rest IH]; intros k Hk.
  - simpl in Hk. assert (k = 0)%nat as -> by lia. split; reflexivity.
  - destruct k as [| k'].
    + rewrite substring_none, Nat.sub_0_r, substring_whole. split; reflexivity.
    + simpl in Hk. destruct (IH k' ltac:(lia)) as [H1 H2].
      cbn [substring String.length Nat.sub append]. rewrite H1.
      split; [reflexivity | exact H2].
Qed.

Lemma zeros_digits (k : nat) :
  allDigits (zeros k) = true /\ String.length (zeros k) = k /\ digitsToN (zeros k) = 0%N.
Proof.
  induction k as [| k (IH1 & IH2 & IH3)]; [repeat split |].
  cbn [zeros allDigits String.length]. rewrite IH1, IH2.
  repeat split. unfold digitsToN in *. cbn [digitsFrom].
  change (digitValue 10 "0") with (Some 0%N). exact IH3.
Qed.

Lemma padStart_digits (s : string) (d : nat) :
  allDigits s = true ->
  allDigits (padStart s d) = true
  /\ (d <= String.length (padStart s d))%nat
  /\ digitsToN (padStart s d) = digitsToN s.
Proof.
  intros Hs. unfold padStart.
  destruct (zeros_digits (d - String.length s)) as (Hz1 & Hz2 & Hz3).
  rewrite allDigits_app, Hz1, Hs, string_length_app, Hz2.
  repeat split; [lia |].
  rewrite (digitsToN_app _ _ Hz1 Hs), Hz3. lia.
Qed.

(** Stripping the trailing zeros takes a run of zeros off the end. *)
Lemma stripTrailingZeros_spec (s : string) :
  exists k, s = stripTrailingZeros s ++ zeros k.
Proof.
  induction s as [| c rest [k IH]].
  - exists 0%nat. reflexivity.
  - cbn [stripTrailingZeros].
    destruct (stripTrailingZeros rest) as [| c' rest'] eqn:Hstrip.
    + destruct (Ascii.eqb_spec c "0") as [-> | Hc].
      * exists (S k). cbn [zeros append]. rewrite IH at 1. reflexivity.
      * exists k. cbn [append]. rewrite IH at 1. reflexivity.
    + exists k. cbn [append]. rewrite IH at 1. reflexivity.
Qed.

Lemma takeDigits_all (s : string) :
  allDigits s = true -> takeDigits s = (s, "").
Proof.
  intros Hs. induction s as [| c rest IH]; [reflexivity |].
  cbn [allDigits] in Hs. apply andb_true_iff in Hs as [Hc Hrest].
  unfold isDigit in Hc. cbn [takeDigits].
  destruct (digitValue 10 c); [| discriminate].
  rewrite (IH Hrest). reflexivity.
Qed.

(** A string that starts with a digit carries no sign, no white space
    and no [Infinity]. *)
Lemma parseFloat_digit_head (c : ascii) (rest : string) :
  isDigit c = true ->
  parseFloat (String c rest) = parseUnsigned false (String c rest)
  /\ prefix "Infinity" (String c rest) = false.
Proof.
  destruct c as [[] [] [] [] [] [] [] []]; intros Hc;
    try discriminate Hc; split; reflexivity.
Qed.

Lemma parseFloat_digits (integer fraction : string) :
  allDigits integer = true -> integer <> "" -> allDigits fraction = true ->
  parseFloat (integer ++ (if truthy fraction then "." ++ fraction else ""))
  = roundDecimal false (digitsToN (integer ++ fraction))
      (- Z.of_nat (String.length fraction)).
Proof.
  intros Hint Hne Hfrac.
  set (tail := if truthy fraction then "." ++ fraction else "").
  assert (Hparse : parseFloat (integer ++ tail) = parseUnsigned false (integer ++ tail)
                   /\ prefix "Infinity" (integer ++ tail) = false).
  { destruct integer as [| c rest]; [congruence |].
    apply parseFloat_digit_head.
    cbn [allDigits] in Hint. apply andb_true_iff in Hint. tauto. }
  destruct Hparse as [-> Hinf].
  unfold parseUnsigned. rewrite Hinf. subst tail.
  destruct fraction as [| f fs].
  - cbn [truthy]. rewrite (takeDigits_app _ "" Hint I).
    cbn [truthy negb andb exponentPart String.length].
    destruct integer; [congruence | reflexivity].
  - cbn [truthy]. rewrite (takeDigits_app _ ("." ++ String f fs) Hint eq_refl).
    cbn [append]. rewrite (takeDigits_all _ Hfrac).
    destruct integer; [congruence | reflexivity].
Qed.

(** What [Number.parseFloat] reads in a formatted amount is the amount
    over [10^decimals]: the double nearest to [m / 10^k] for some [m]
    and [k] with [m / 10^k = value / 10^decimals]. *)
Lemma parseFloat_formatUnits (value : Z) (decimals : nat) :
  (0 <= value)%Z ->
  exists (m : N) (k : nat),
    parseFloat (formatUnits_bigint value decimals)
    = roundDecimal false m (- Z.of_nat k)
    /\ (Z.of_N m * 10 ^ Z.of_nat decimals = value * 10 ^ Z.of_nat k)%Z.
Proof.
  intros Hv. unfold formatUnits_bigint, BigInt_toString. cbv zeta.
  destruct (Z.ltb_spec value 0) as [Hneg | _]; [lia |].
  destruct (decimal_digits (Z.to_N value)) as (Hd1 & Hd2 & _).
  destruct (padStart_digits (decimal (Z.to_N value)) decimals Hd1) as (Hp1 & Hp2 & Hp3).
  set (display := padStart (decimal (Z.to_N value)) decimals) in *.
  destruct (substring_split display (String.length display - decimals) ltac:(lia))
    as [Hsplit Hlen].
  replace (String.length display - (String.length display - decimals))%nat
    with decimals in Hsplit, Hlen by lia.
  set (integer := substring 0 (String.length display - decimals) display) in *.
  set (fraction := substring (String.length display - decimals) decimals display) in *.
  assert (Hparts : allDigits integer = true /\ allDigits fraction = true).
  { rewrite <- Hsplit, allDigits_app in Hp1. apply andb_true_iff in Hp1. exact Hp1. }
  destruct Hparts as [Hi Hf].
  destruct (stripTrailingZeros_spec fraction) as [j Hstrip].
  set (stripped := stripTrailingZeros fraction) in *.
  destruct (zeros_digits j) as (Hz1 & Hz2 & Hz3).
  assert (Hs : allDigits stripped = true).
  { rewrite Hstrip, allDigits_app in Hf. apply andb_true_iff in Hf. tauto. }
  assert (Hwhole : allDigits (or_else integer "0") = true
                   /\ or_else integer "0" <> ""
                   /\ digitsToN (or_else integer "0") = digitsToN integer).
  { unfold or_else. destruct integer; cbn [truthy]; repeat split; auto; discriminate. }
  destruct Hwhole as (Hw1 & Hw2 & Hw3).
  exists (digitsToN (or_else integer "0" ++ stripped)), (String.length stripped).
  split; [exact (parseFloat_digits _ _ Hw1 Hw2 Hs) |].
  rewrite (digitsToN_app _ _ Hw1 Hs), Hw3.
  assert (Hvalue : Z.to_N value
                   = (digitsToN integer * 10 ^ N.of_nat decimals
                      + digitsToN stripped * 10 ^ N.of_nat j)%N).
  { pose proof (f_equal digitsToN Hstrip) as Hfv.
    rewrite (digitsToN_app _ _ Hs Hz1), Hz2, Hz3 in Hfv.
    rewrite <- Hd2, <- Hp3. fold display. rewrite <- Hsplit.
    rewrite (digitsToN_app _ _ Hi Hf), Hlen, Hfv. lia. }
  assert (Hdec : decimals = (String.length stripped + j)%nat).
  { pose proof (f_equal String.length Hstrip) as Hfl.
    rewrite string_length_app, Hz2, Hlen in Hfl. exact Hfl. }
  rewrite <- (Z2N.id value Hv), Hvalue, Hdec.
  rewrite !N2Z.inj_add, !N2Z.inj_mul, !N2Z.inj_pow, !nat_N_Z.
  rewrite Nat2Z.inj_add, Z.pow_add_r by lia.
  change (Z.of_N 10) with 10%Z. rewrite !Z.pow_add_r by lia. ring.
Qed.

Lemma roundDecimal_negative_exponent (m : N) (k : nat) :
  roundDecimal false m (- Z.of_nat k) = roundRatio false (Z.of_N m) (10 ^ Z.of_nat k).
Proof.
  unfold roundDecimal. destruct k as [| k'].
  - cbn [Z.of_nat Z.opp Z.leb Z.compare]. rewrite Z.pow_0_r, Z.mul_1_r. reflexivity.
  - destruct (Z.leb_spec 0 (- Z.of_nat (S k'))) as [H | _]; [lia |].
    rewrite Z.opp_involutive. reflexivity.
Qed.

(** Formatting with the same decimals and reading back keeps the order
    of two non-negative amounts. *)
Lemma formatted_amounts_ordered (required balance : Z) (decimals : nat) :
  (0 <= required <= balance)%Z ->
  F64_ge (parseFloat (formatUnits_bigint balance decimals))
         (parseFloat (formatUnits_bigint required decimals)) = true.
Proof.
  intros [Hr Hb].
  destruct (parseFloat_formatUnits balance decimals ltac:(lia)) as (mb & kb & -> & Eb).
  destruct (parseFloat_formatUnits required decimals Hr) as (mr & kr & -> & Er).
  rewrite !roundDecimal_negative_exponent.
  assert (Hd : (0 < 10 ^ Z.of_nat decimals)%Z) by (apply Z.pow_pos_nonneg; lia).
  assert (Hkb : (0 < 10 ^ Z.of_nat kb)%Z) by (apply Z.pow_pos_nonneg; lia).
  assert (Hkr : (0 < 10 ^ Z.of_nat kr)%Z) by (apply Z.pow_pos_nonneg; lia).
  apply roundRatio_monotone; [lia | assumption | assumption |].
  apply (Z.mul_le_mono_pos_r _ _ (10 ^ Z.of_nat decimals) Hd).
  replace (Z.of_N mr * 10 ^ Z.of_nat kb * 10 ^ Z.of_nat decimals)%Z
    with (Z.of_N mr * 10 ^ Z.of_nat decimals * 10 ^ Z.of_nat kb)%Z by ring.
  replace (Z.of_N mb * 10 ^ Z.of_nat kr * 10 ^ Z.of_nat decimals)%Z
    with (Z.of_N mb * 10 ^ Z.of_nat decimals * 10 ^ Z.of_nat kr)%Z by ring.
  rewrite Er, Eb.
  replace (balance * 10 ^ Z.of_nat kb * 10 ^ Z.of_nat kr)%Z
    with (balance * 10 ^ Z.of_nat kr * 10 ^ Z.of_nat kb)%Z by ring.
  apply Z.mul_le_mono_nonneg_r; [lia |].
  apply Z.mul_le_mono_nonneg_r; lia.
Qed.

(** C9 (amended).  With the built-ins of the host: the check answers
    true (fails open) when there is no selected requirement, no token
    data or fewer than two entries of it, when the decimals or the
    balance read did not succeed, and when [BigInt] rejects the required
    amount.  When both reads succeed and the amount is an integer, the
    answer is the comparison [>=] of two doubles: the balance and the
    required amount, each formatted with the token's decimals and read
    back by [Number.parseFloat].  It is true whenever the required
    amount, not negative, is at most the balance. *)
Theorem hasSufficientBalance_compares_doubles
  (selectedRequirement : option PaymentRequirements)
  (selectedTokenData : option (list ReadResult)) :
  let answer := Host.hasSufficientBalance selectedRequirement selectedTokenData in
  (selectedRequirement = None -> answer = true)
  /\ (selectedTokenData = None -> answer = true)
  /\ (forall data, selectedTokenData = Some data -> (length data < 2)%nat ->
      answer = true)
  /\ (forall data, selectedTokenData = Some data ->
      successResult (nth_error data 0) = None
      \/ successResult (nth_error data 1) = None ->
      answer = true)
  /\ (forall requirement e,
      selectedRequirement = Some requirement ->
      BigInt (requiredAmountOf requirement) = inl e ->
      answer = true)
  /\ (forall requirement data decimals balance required,
      selectedRequirement = Some requirement ->
      selectedTokenData = Some data ->
      successResult (nth_error data 0) = Some (NumberValue decimals) ->
      successResult (nth_error data 1) = Some (BigIntValue balance) ->
      BigInt (requiredAmountOf requirement) = inr required ->
      answer = F64_ge (parseFloat (formatUnits_bigint balance (N.to_nat decimals)))
                 (parseFloat (formatUnits_bigint required (N.to_nat decimals)))
      /\ ((0 <= required <= balance)%Z -> answer = true)).
Proof.
  cbv zeta. unfold Host.hasSufficientBalance.
  destruct (hasSufficientBalance_decision BigInt formatUnits F64 parseFloat F64_ge
              selectedRequirement selectedTokenData)
    as (Hnone & Hnodata & Hshort & Hfailed & Hcompared).
  split; [exact Hnone |]. split; [exact Hnodata |]. split; [exact Hshort |].
  split; [exact Hfailed |]. split.
  - intros requirement e -> Hbig.
    destruct selectedTokenData as [data |]; [| exact (Hnodata eq_refl)].
    destruct (Nat.ltb_spec (length data) 2) as [Hlt | Hge];
      [exact (Hshort data eq_refl Hlt) |].
    destruct (successResult (nth_error data 0)) as [decimals |] eqn:H0;
      [| exact (Hfailed data eq_refl (or_introl H0))].
    destruct (successResult (nth_error data 1)) as [balanceRaw |] eqn:H1;
      [| exact (Hfailed data eq_refl (or_intror H1))].
    specialize (Hcompared requirement data decimals balanceRaw eq_refl eq_refl H0 H1).
    rewrite Hbig in Hcompared.
    destruct (formatUnits balanceRaw decimals); exact Hcompared.
  - intros requirement data decimals balance required -> -> H0 H1 Hbig.
    specialize (Hcompared requirement data _ _ eq_refl eq_refl H0 H1).
    rewrite Hbig in Hcompared.
    change (Page.hasSufficientBalance BigInt formatUnits parseFloat F64_ge
              (Some requirement) (Some data)
            = F64_ge (parseFloat (formatUnits_bigint balance (N.to_nat decimals)))
                (parseFloat (formatUnits_bigint required (N.to_nat decimals))))
      in Hcompared.
    split; [exact Hcompared |].
    intros Hle. rewrite Hcompared. apply formatted_amounts_ordered. exact Hle.
Qed.

End FormattedAmounts.

(* ================================================================= *)
(** ** Runs on concrete inputs *)

Section Runs.
Import Js X402 Hook.
Local Open Scope string_scope.

(** [cheapest] over amounts 100, 50, 75 returns the 50 element. *)
Example cheapest_of_100_50_75 :
  Selectors.selectCheapestOption Host.BigInt 2%N (Some Demo.offers)
  = inr (Demo.requirement "eip155:10" "50").
Proof. reflexivity. Qed.

(** Of two elements with the least amount the earlier one is returned. *)
Example cheapest_of_tied_offers :
  Selectors.selectCheapestOption Host.BigInt 2%N (Some Demo.tiedOffers)
  = inr (Demo.requirement "eip155:10" "20").
Proof. reflexivity. Qed.

(** An amount that is no integer literal makes the comparator throw. *)
Example cheapest_of_malformed_offers :
  Selectors.selectCheapestOption Host.BigInt 2%N (Some Demo.malformedOffers)
  = inl (ErrorObj "Cannot convert 1.5 to a BigInt").
Proof. reflexivity. Qed.

(** [by-network("eip155:10")] returns the second element. *)
Example by_network_eip155_10 :
  Selectors.createSelectForCurrentNetwork decimal 10%N 2%N
    (Some [Demo.requirement "eip155:1" "100"; Demo.requirement "eip155:10" "50"])
  = inr (Demo.requirement "eip155:10" "50").
Proof. reflexivity. Qed.

(** End to end: one offer, the first-option selector, a 200 answer with
    the body [{ok: true}]. *)
Example pay_end_to_end :
  let run := Demo.pay [Demo.requirement "eip155:84532" "10000"] None
               (Some Demo.wallet) (Some Selectors.selectFirstOption) None in
  snd run = inr Demo.okBody
  /\ status (after initialState (fst run)) = success
  /\ result (after initialState (fst run)) = Demo.okBody.
Proof. repeat split. Qed.

(** With 6 decimals, a balance of 9999 base units does not cover 10000,
    and a balance of 10000 does. *)
Example balance_9999_of_10000 :
  Host.hasSufficientBalance (Some (Demo.requirement "eip155:84532" "10000"))
    (Some [Page.ReadSuccess (Page.NumberValue 6);
           Page.ReadSuccess (Page.BigIntValue 9999)]) = false
  /\ Host.hasSufficientBalance (Some (Demo.requirement "eip155:84532" "10000"))
       (Some [Page.ReadSuccess (Page.NumberValue 6);
              Page.ReadSuccess (Page.BigIntValue 10000)]) = true.
Proof. split; reflexivity. Qed.

(** An amount [BigInt] rejects, a failed read and missing data all
    allow the payment. *)
Example balance_check_fails_open :
  Host.hasSufficientBalance (Some (Demo.requirement "eip155:84532" "ten"))
    (Some [Page.ReadSuccess (Page.NumberValue 6);
           Page.ReadSuccess (Page.BigIntValue 0)]) = true
  /\ Host.hasSufficientBalance (Some (Demo.requirement "eip155:84532" "10000"))
       (Some [Page.ReadSuccess (Page.NumberValue 6);
              Page.ReadFailure (ErrorObj "execution reverted")]) = true
  /\ Host.hasSufficientBalance (Some (Demo.requirement "eip155:84532" "10000"))
       None = true.
Proof. repeat split. Qed.

Lemma observers_returnNormally : Spec.returnNormally (Some Demo.observers).
Proof. repeat split; intros f [= <-]; reflexivity. Defined.

(** C3, on the offers costing 100, 50 and 75. *)
Lemma selectCheapestOption_earliest_minimum_witness :
  Demo.offers <> []
  /\ Forall (Spec.integerAmount Host.BigInt) Demo.offers
  /\ exists r pre post,
       Selectors.selectCheapestOption Host.BigInt 2%N (Some Demo.offers) = inr r
       /\ (Demo.offers = pre ++ r :: post)%list
       /\ Forall (Spec.cheaper Host.BigInt r) pre
       /\ Forall (Spec.notDearer Host.BigInt r) post.
Proof.
  assert (Hne : Demo.offers <> []) by discriminate.
  assert (Hint : Forall (Spec.integerAmount Host.BigInt) Demo.offers).
  { repeat apply Forall_cons; [exists 100%Z | exists 50%Z | exists 75%Z | apply Forall_nil];
      reflexivity. }
  exact (conj Hne (conj Hint
    (selectCheapestOption_earliest_minimum N Host.BigInt 2%N Demo.offers Hne Hint))).
Defined.

(** C5, on a pinned requirement that shares only the four key
    properties with the second offer. *)
Lemma createSelectByRequirement_first_match_witness :
  Demo.offers <> []
  /\ scheme Demo.pinned <> scheme (Demo.requirement "eip155:10" "50")
  /\ Selectors.createSelectByRequirement Demo.pinned 2%N (Some Demo.offers)
     = inr (Demo.requirement "eip155:10" "50").
Proof.
  assert (Hne : Demo.offers <> []) by discriminate.
  split; [exact Hne |]. split; [discriminate |].
  apply (proj1 (createSelectByRequirement_first_match N Demo.pinned 2%N Demo.offers Hne)).
  exists [Demo.requirement "eip155:1" "100"], [Demo.requirement "eip155:8453" "75"].
  split; [reflexivity |]. split; [reflexivity |].
  apply Forall_cons; [discriminate | apply Forall_nil].
Defined.

(** C7, on the chain id 10. *)
Lemma createSelectForCurrentNetwork_first_match_witness :
  Demo.offers <> []
  /\ Selectors.createSelectForCurrentNetwork decimal 10%N 2%N (Some Demo.offers)
     = inr (Demo.requirement "eip155:10" "50")
  /\ Selectors.createSelectForCurrentNetwork decimal 999%N 2%N (Some Demo.offers)
     = inl (Selectors.NoMatchForNetwork decimal 999%N).
Proof.
  assert (Hne : Demo.offers <> []) by discriminate.
  split; [exact Hne |]. split.
  - apply (proj1 (createSelectForCurrentNetwork_first_match N decimal 10%N 2%N
                    Demo.offers Hne)).
    exists [Demo.requirement "eip155:1" "100"], [Demo.requirement "eip155:8453" "75"].
    split; [reflexivity |]. split; [reflexivity |].
    apply Forall_cons; [discriminate | apply Forall_nil].
  - apply (proj2 (createSelectForCurrentNetwork_first_match N decimal 999%N 2%N
                    Demo.offers Hne)).
    repeat apply Forall_cons; try apply Forall_nil; discriminate.
Defined.

(** C1, as stated, fails without a wallet client: [pay] fails, [onError]
    and [onSettled] are provided, and neither is called. *)
Lemma pay_without_wallet_calls_no_callback :
  let run := Demo.pay Demo.offers None None None (Some Demo.observers) in
  snd run = inl NoWalletConnected
  /\ (forall err variables, ~ In (CallOnError err variables) (fst run))
  /\ (forall data err variables, ~ In (CallOnSettled data err variables) (fst run)).
Proof.
  cbv zeta. split; [reflexivity |].
  split; intros; intros [H | [H | []]]; discriminate.
Qed.

(** C1 (amended), on a selector that finds no offer for its network. *)
Lemma pay_failure_handling_witness :
  let selector := Selectors.createSelectForCurrentNetwork decimal 999%N in
  let run := Demo.pay Demo.offers None (Some Demo.wallet) (Some selector)
               (Some Demo.observers) in
  let err := Selectors.NoMatchForNetwork decimal 999%N in
  Spec.returnNormally (Some Demo.observers)
  /\ snd run = inl err
  /\ forall s, status (after s (fst run)) = Status.error
               /\ error (after s (fst run)) = Some (errorMessage err).
Proof.
  cbv zeta.
  assert (Hfails :
    snd (Demo.pay Demo.offers None (Some Demo.wallet)
           (Some (Selectors.createSelectForCurrentNetwork decimal 999%N))
           (Some Demo.observers))
    = inl (Selectors.NoMatchForNetwork decimal 999%N)) by reflexivity.
  split; [exact observers_returnNormally |]. split; [exact Hfails |].
  exact (proj1 (pay_failure_handling N string Sdk.decodePaymentResponseHeader
                  (Sdk.wrapFetchWithPayment (Demo.server Demo.offers None))
                  "/api/stream/access" (Some Demo.wallet)
                  (Some (Selectors.createSelectForCurrentNetwork decimal 999%N))
                  (Some Demo.observers) _ observers_returnNormally Hfails)).
Defined.

(** C2, as stated, fails on a settlement header that does not decode:
    the response is successful and its body parses, yet [pay] raises the
    decode error and the status ends as error, with no result. *)
Lemma pay_decode_failure_is_fatal :
  let run := Demo.pay [Demo.requirement "eip155:84532" "10000"] (Some "%%%")
               (Some Demo.wallet) None (Some Demo.observers) in
  Fetch.ok (Demo.paidResponse (Some "%%%")) = true
  /\ Fetch.json (Demo.paidResponse (Some "%%%")) = inr Demo.okBody
  /\ Sdk.decodePaymentResponseHeader "%%%"
     = inl (ErrorObj "Invalid payment response header")
  /\ snd run = inl (ErrorObj "Invalid payment response header")
  /\ status (after initialState (fst run)) = Status.error
  /\ result (after initialState (fst run)) = JNull.
Proof. cbv zeta. repeat split. Qed.

(** C2 (amended), on the same response. *)
Lemma pay_settlement_header_witness :
  let run := Demo.pay [Demo.requirement "eip155:84532" "10000"] (Some "%%%")
               (Some Demo.wallet) None (Some Demo.observers) in
  let e := ErrorObj "Invalid payment response header" in
  Spec.returnNormally (Some Demo.observers)
  /\ Fetch.ok (Demo.paidResponse (Some "%%%")) = true
  /\ Fetch.json (Demo.paidResponse (Some "%%%")) = inr Demo.okBody
  /\ forall s, status (after s (fst run)) = Status.error
               /\ error (after s (fst run)) = Some (errorMessage e)
               /\ result (after s (fst run)) = result s.
Proof.
  cbv zeta. split; [exact observers_returnNormally |].
  split; [reflexivity |]. split; [reflexivity |].
  exact (proj2 (pay_settlement_header N string Sdk.decodePaymentResponseHeader
                  (Sdk.wrapFetchWithPayment
                     (Demo.server [Demo.requirement "eip155:84532" "10000"] (Some "%%%")))
                  "/api/stream/access" Demo.wallet None (Some Demo.observers)
                  _ (Demo.paidResponse (Some "%%%")) Demo.okBody
                  observers_returnNormally eq_refl eq_refl eq_refl eq_refl)).
Defined.

(** C9, as stated, fails on a balance of one token of 18 decimals and a
    required amount one base unit above it: the balance is below the
    required amount, and the check answers true. *)
Lemma hasSufficientBalance_allows_shortfall :
  let data := [Page.ReadSuccess (Page.NumberValue 18);
               Page.ReadSuccess (Page.BigIntValue Demo.oneToken)] in
  Host.BigInt (amount Demo.oneTokenAndOneUnit) = inr (Demo.oneToken + 1)%Z
  /\ (Demo.oneToken >=? Demo.oneToken + 1)%Z = false
  /\ Host.formatUnits (Page.BigIntValue Demo.oneToken) (Page.NumberValue 18) = inr "1"
  /\ Host.formatUnits (Page.BigIntValue (Demo.oneToken + 1)) (Page.NumberValue 18)
     = inr "1.000000000000000001"
  /\ Host.parseFloat "1.000000000000000001" = Host.parseFloat "1"
  /\ Host.hasSufficientBalance (Some Demo.oneTokenAndOneUnit) (Some data) = true.
Proof. cbv zeta. repeat split. Qed.

(** C9 (amended), on a balance that covers the required amount: 10000
    base units of a token of 6 decimals. *)
Lemma hasSufficientBalance_compares_doubles_witness :
  let requirement := Demo.requirement "eip155:84532" "10000" in
  let data := [Page.ReadSuccess (Page.NumberValue 6);
               Page.ReadSuccess (Page.BigIntValue 10000)] in
  Host.BigInt (Page.requiredAmountOf requirement) = inr 10000%Z
  /\ (0 <= 10000 <= 10000)%Z
  /\ Host.hasSufficientBalance (Some requirement) (Some data) = true.
Proof.
  cbv zeta.
  assert (Hle : (0 <= 10000 <= 10000)%Z) by lia.
  split; [reflexivity |]. split; [exact Hle |].
  destruct (hasSufficientBalance_compares_doubles
              (Some (Demo.requirement "eip155:84532" "10000"))
              (Some [Page.ReadSuccess (Page.NumberValue 6);
                     Page.ReadSuccess (Page.BigIntValue 10000)]))
    as (_ & _ & _ & _ & _ & Hcompared).
  exact (proj2 (Hcompared _ _ 6%N 10000%Z 10000%Z eq_refl eq_refl eq_refl eq_refl eq_refl)
           Hle).
Defined.

End Runs.

(* ================================================================= *)
(** ** More about the selectors *)

Section SelectorCompositions.
Import Js X402 Selectors Spec.

Variable JsNumber : Type.
Variable NumberToString : JsNumber -> string.
Variable BigInt : string -> Completion Z.

Local Notation amountIs := (Spec.amountIs BigInt).
Local Notation integerAmount := (Spec.integerAmount BigInt).
Local Notation cheaper := (Spec.cheaper BigInt).
Local Notation compareAmount := (Selectors.compareAmount BigInt).

(** What [find] returns is the first element that satisfies the test. *)
Lemma find_Some_firstWith {A : Type} (p : A -> bool) (P : A -> Prop) (l : list A) (r : A) :
  (forall x, p x = true <-> P x) ->
  find p l = Some r -> firstWith P l r.
Proof.
  intros Hp. induction l as [| x rest IH]; simpl; [discriminate |].
  destruct (p x) eqn:Hpx.
  - intros [= ->]. exists [], rest. repeat split; [apply Hp; exact Hpx | constructor].
  - intros Hfind. destruct (IH Hfind) as (pre & post & -> & Hr & Hpre).
    exists (x :: pre), post. repeat split; [exact Hr |].
    constructor; [| exact Hpre]. intros HPx. apply Hp in HPx. congruence.
Qed.

Lemma find_None_Forall {A : Type} (p : A -> bool) (P : A -> Prop) (l : list A) :
  (forall x, p x = true <-> P x) ->
  find p l = None -> Forall (fun x => ~ P x) l.
Proof.
  intros Hp. induction l as [| x rest IH]; simpl; [constructor |].
  destruct (p x) eqn:Hpx; [discriminate |].
  intros Hfind. constructor; [| exact (IH Hfind)].
  intros HPx. apply Hp in HPx. congruence.
Qed.

Lemma firstWith_In {A : Type} (P : A -> Prop) (l : list A) (r : A) :
  firstWith P l r -> In r l /\ P r.
Proof.
  intros (pre & post & -> & Hr & _). split; [| exact Hr].
  apply in_or_app. right. left. reflexivity.
Qed.

(** The sorted array holds elements of the array only. *)
Lemma Array_sort_In (l s : list PaymentRequirements) :
  Array_sort compareAmount l = inr s -> forall y, In y s -> In y l.
Proof.
  revert s. induction l as [| x rest IH]; intros s; simpl.
  - intros [= <-] y Hy. exact Hy.
  - destruct (Array_sort compareAmount rest) as [e | s0]; simpl; [discriminate |].
    intros Hins y Hy.
    destruct (sort_insert_In BigInt x s0 s Hins y Hy) as [<- | Hin]; [left; reflexivity |].
    right. exact (IH s0 eq_refl y Hin).
Qed.

(** A comparison that returns has read two integer amounts. *)
Lemma compareAmount_returns (a b : PaymentRequirements) (c : Z) :
  compareAmount a b = inr c -> integerAmount a /\ integerAmount b.
Proof.
  unfold Selectors.compareAmount, Spec.integerAmount, Spec.amountIs.
  destruct (BigInt (amount a)) as [ea | za]; simpl; [discriminate |].
  destruct (BigInt (amount b)) as [eb | zb]; simpl; [discriminate |].
  intros _. eauto.
Qed.

Lemma sort_insert_returns (x : PaymentRequirements) (s s' : list PaymentRequirements) :
  s <> [] -> sort_insert compareAmount x s = inr s' -> integerAmount x.
Proof.
  destruct s as [| y rest]; [congruence |]. intros _. simpl.
  destruct (compareAmount x y) as [e | c] eqn:Hcmp; simpl; [discriminate |].
  intros _. exact (proj1 (compareAmount_returns x y c Hcmp)).
Qed.

(** Sorting two elements or more compares, and so parses, each of
    them. *)
Lemma Array_sort_returns (l s : list PaymentRequirements) :
  (2 <= length l)%nat ->
  Array_sort compareAmount l = inr s -> Forall integerAmount l.
Proof.
  revert s. induction l as [| x rest IH]; intros s Hlen; [simpl in Hlen; lia |].
  simpl. destruct (Array_sort compareAmount rest) as [e | s0] eqn:Hrest; simpl;
    [discriminate |].
  intros Hins.
  pose proof (Array_sort_length _ _ _ Hrest) as Hlen0.
  assert (Hne : s0 <> []).
  { destruct s0; [| discriminate]. simpl in Hlen, Hlen0. lia. }
  constructor; [exact (sort_insert_returns x s0 s Hne Hins) |].
  destruct rest as [| y [| z rest']].
  - simpl in Hlen. lia.
  - simpl in Hrest. injection Hrest as <-. constructor; [| constructor].
    simpl in Hins.
    destruct (compareAmount x y) as [e | c] eqn:Hcmp; simpl in Hins; [discriminate |].
    exact (proj2 (compareAmount_returns x y c Hcmp)).
  - apply (IH s0); [simpl; lia | reflexivity].
Qed.

(** X1.  Whatever a selector returns is one of the offers it was given:
    no selector returns a requirement that is not in the list (and none
    returns at all for an absent list). *)
Theorem selectors_return_an_offer (chainId : JsNumber)
  (selectedRequirement : PaymentRequirements) (version : JsNumber)
  (accepts : option (list PaymentRequirements)) (r : PaymentRequirements) :
  selectFirstOption version accepts = inr r
  \/ selectCheapestOption BigInt version accepts = inr r
  \/ createSelectForCurrentNetwork NumberToString chainId version accepts = inr r
  \/ createSelectByRequirement selectedRequirement version accepts = inr r ->
  exists offers, accepts = Some offers /\ In r offers.
Proof.
  destruct accepts as [[| first others] |];
    try (intros [H | [H | [H | H]]]; discriminate H).
  intros Hsel. exists (first :: others). split; [reflexivity |].
  destruct Hsel as [H | [H | [H | H]]].
  - injection H as <-. left. reflexivity.
  - unfold selectCheapestOption in H.
    destruct (Array_sort compareAmount (first :: others)) as [e | sorted] eqn:Hsort;
      simpl in H; [discriminate |].
    injection H as <-.
    apply (Array_sort_In _ _ Hsort).
    pose proof (Array_sort_length _ _ _ Hsort) as Hlen.
    destruct sorted; [discriminate Hlen | left; reflexivity].
  - unfold createSelectForCurrentNetwork in H.
    destruct (find _ (first :: others)) as [x |] eqn:Hfind; [| discriminate].
    injection H as <-. exact (proj1 (find_some _ _ Hfind)).
  - unfold createSelectByRequirement in H.
    destruct (find _ (first :: others)) as [x |] eqn:Hfind; [| discriminate].
    injection H as <-. exact (proj1 (find_some _ _ Hfind)).
Qed.

(** X2.  On a list of two offers or more the cheapest selector returns
    exactly when every amount is an integer literal; a single offer is
    returned as it is, its amount unread. *)
Theorem selectCheapestOption_returns_iff (version : JsNumber)
  (accepts : list PaymentRequirements) :
  accepts <> [] ->
  ((exists r, selectCheapestOption BigInt version (Some accepts) = inr r)
   <-> (length accepts = 1%nat \/ Forall integerAmount accepts))
  /\ (forall only, accepts = [only] ->
      selectCheapestOption BigInt version (Some accepts) = inr only).
Proof.
  intros Hne. destruct accepts as [| first others]; [congruence |]. split.
  - split.
    + intros [r Hr]. destruct others as [| second others']; [left; reflexivity |].
      right. unfold selectCheapestOption in Hr.
      destruct (Array_sort compareAmount (first :: second :: others'))
        as [e | sorted] eqn:Hsort; simpl in Hr; [discriminate |].
      apply (Array_sort_returns _ sorted); [simpl; lia | exact Hsort].
    + intros [Hone | Hall].
      * destruct others; [| discriminate]. exists first. reflexivity.
      * destruct (Array_sort_head BigInt first others Hall)
          as (r & tail & _ & _ & Hsort & _).
        exists r. unfold selectCheapestOption. rewrite Hsort. reflexivity.
  - intros only [= -> ->]. reflexivity.
Qed.

(** X3.  On a non-empty list the two targeted selectors return exactly
    when a matching offer exists: one on the network [eip155:<chainId>]
    for the by-network selector, one with the pinned (network, asset,
    amount, payTo) for the by-requirement selector. *)
Theorem targeted_selectors_return_iff (chainId : JsNumber)
  (selectedRequirement : PaymentRequirements) (version : JsNumber)
  (accepts : list PaymentRequirements) :
  accepts <> [] ->
  ((exists r, createSelectForCurrentNetwork NumberToString chainId version
                (Some accepts) = inr r)
   <-> exists x, In x accepts /\ network x = eip155 NumberToString chainId)
  /\ ((exists r, createSelectByRequirement selectedRequirement version
                   (Some accepts) = inr r)
      <-> exists x, In x accepts /\ keyTuple x = keyTuple selectedRequirement).
Proof.
  intros Hne. destruct accepts as [| first others]; [congruence |].
  assert (Hnet : forall x, String.eqb (network x) (eip155 NumberToString chainId) = true
                           <-> network x = eip155 NumberToString chainId)
    by (intros x; apply String.eqb_eq).
  pose proof (sameKeyProperties_keyTuple selectedRequirement) as Hkey.
  unfold createSelectForCurrentNetwork, createSelectByRequirement. split; split.
  - intros [r Hr]. destruct (find _ (first :: others)) as [x |] eqn:Hfind; [| discriminate].
    destruct (find_some _ _ Hfind) as [Hin Hx]. exists x. split; [exact Hin |].
    apply Hnet. exact Hx.
  - intros (x & Hin & Hx).
    destruct (find _ (first :: others)) as [y |] eqn:Hfind; [eexists; reflexivity |].
    pose proof (find_None_Forall _ _ _ Hnet Hfind) as Hall.
    rewrite Forall_forall in Hall. destruct (Hall x Hin Hx).
  - intros [r Hr]. destruct (find _ (first :: others)) as [x |] eqn:Hfind; [| discriminate].
    destruct (find_some _ _ Hfind) as [Hin Hx]. exists x. split; [exact Hin |].
    apply Hkey. exact Hx.
  - intros (x & Hin & Hx).
    destruct (find _ (first :: others)) as [y |] eqn:Hfind; [eexists; reflexivity |].
    pose proof (find_None_Forall _ _ _ Hkey Hfind) as Hall.
    rewrite Forall_forall in Hall. destruct (Hall x Hin Hx).
Qed.

(** Pinning the first offer with a given tuple selects it. *)
Lemma createSelectByRequirement_pinned (version : JsNumber)
  (accepts : list PaymentRequirements) (r : PaymentRequirements) :
  firstWith (fun x => keyTuple x = keyTuple r) accepts r ->
  createSelectByRequirement r version (Some accepts) = inr r.
Proof.
  intros Hfirst. unfold createSelectByRequirement.
  destruct accepts as [| first others].
  - destruct Hfirst as (pre & post & H & _). destruct pre; discriminate H.
  - rewrite (find_firstWith _ _ _ r (sameKeyProperties_keyTuple r) Hfirst). reflexivity.
Qed.

(** X4.  Pinning what a selector chose selects it again: when the
    first-option, the cheapest or the by-network selector returns [r]
    for a list, the by-requirement selector for [r] returns [r] for that
    list, as the pages do when they pin the user's pick. *)
Theorem pinning_keeps_selection (chainId version version' : JsNumber)
  (accepts : option (list PaymentRequirements)) (r : PaymentRequirements) :
  selectFirstOption version accepts = inr r
  \/ selectCheapestOption BigInt version accepts = inr r
  \/ createSelectForCurrentNetwork NumberToString chainId version accepts = inr r ->
  createSelectByRequirement r version' accepts = inr r.
Proof.
  destruct accepts as [[| first others] |];
    try (intros [H | [H | H]]; discriminate H).
  intros [H | [H | H]]; apply createSelectByRequirement_pinned.
  - injection H as <-. exists [], others. repeat split. constructor.
  - unfold selectCheapestOption in H.
    destruct (Array_sort compareAmount (first :: others)) as [e | sorted] eqn:Hsort;
      simpl in H; [discriminate |].
    injection H as <-.
    destruct others as [| second others'].
    + simpl in Hsort. injection Hsort as <-. exists [], []. repeat split. constructor.
    + assert (Hall : Forall integerAmount (first :: second :: others'))
        by (apply (Array_sort_returns _ sorted); [simpl; lia | exact Hsort]).
      destruct (Array_sort_head BigInt first (second :: others') Hall)
        as (r & tail & pre & post & Hsort' & _ & Hsplit & Hpre & _).
      rewrite Hsort in Hsort'. injection Hsort' as ->. simpl hd.
      exists pre, post. repeat split; [exact Hsplit |].
      eapply Forall_impl; [| exact Hpre].
      intros x (zr & zx & Hr & Hx & Hlt) Hsame.
      unfold Spec.amountIs in Hr, Hx.
      assert (Hamount : amount x = amount r) by (unfold keyTuple in Hsame; congruence).
      rewrite Hamount, Hr in Hx. injection Hx as <-. lia.
  - unfold createSelectForCurrentNetwork in H.
    destruct (find _ (first :: others)) as [x |] eqn:Hfind; [| discriminate].
    injection H as <-.
    assert (Hnet : forall y, String.eqb (network y) (eip155 NumberToString chainId) = true
                             <-> network y = eip155 NumberToString chainId)
      by (intros y; apply String.eqb_eq).
    destruct (find_Some_firstWith _ _ _ _ Hnet Hfind) as (pre & post & Hsplit & Hr & Hpre).
    exists pre, post. repeat split; [exact Hsplit |].
    eapply Forall_impl; [| exact Hpre].
    intros y Hy Hsame. apply Hy.
    unfold keyTuple in Hsame. congruence.
Qed.

End SelectorCompositions.

(* ================================================================= *)
(** ** The hook, whatever the callbacks do *)

Section HookOutcomes.
Import Js X402 Hook Spec Observations.
Local Open Scope string_scope.

Variable JsNumber : Type.
Variable PaymentRequired : Type.
Variable accepts_of : PaymentRequired -> option (list PaymentRequirements).
Variable decodePaymentRequiredHeader : string -> Completion (option PaymentRequired).
Variable SettleResponse : Type.
Variable decodePaymentResponseHeader : string -> Completion SettleResponse.
Variable fetch : string -> Completion Fetch.Response.
Variable fetchWithPayment :
  SelectPaymentRequirements JsNumber -> ClientEvmSigner -> string
  -> Completion Fetch.Response.
Variable hook_url : string.

Local Notation fetchPaymentRequirements :=
  (Hook.fetchPaymentRequirements accepts_of decodePaymentRequiredHeader fetch hook_url).
Local Notation pay := (Hook.pay decodePaymentResponseHeader fetchWithPayment hook_url).
Local Notation pay_body :=
  (Hook.pay_body decodePaymentResponseHeader fetchWithPayment hook_url).
Local Notation logPaymentResponse :=
  (Hook.logPaymentResponse decodePaymentResponseHeader).
Local Notation variables := {| url := hook_url |}.

(** X5.  [fetchPaymentRequirements] never rejects.  What it resolves
    with is what it leaves in the state as payment requirements, and it
    leaves status, error and result as they were.  It resolves with a
    list exactly when the request returned a response whose
    PAYMENT-REQUIRED header is not empty and decodes to an object with
    an [accepts] list, and then with that list (the empty one
    included); in every other case, a failed request or decode
    included, with [null]. *)
Theorem fetchPaymentRequirements_resolves :
  exists reqs,
    snd fetchPaymentRequirements = inr reqs
    /\ (forall s,
          let s' := after s (fst fetchPaymentRequirements) in
          paymentRequirements s' = reqs
          /\ status s' = status s /\ error s' = error s /\ result s' = result s)
    /\ (forall accepts,
          reqs = Some accepts
          <-> exists response header decoded,
                fetch hook_url = inr response
                /\ Fetch.headers_get response "PAYMENT-REQUIRED" = Some header
                /\ header <> ""
                /\ decodePaymentRequiredHeader header = inr (Some decoded)
                /\ accepts_of decoded = Some accepts).
Proof.
  unfold Hook.fetchPaymentRequirements, Hook.fetchPaymentRequirements_body, await.
  destruct (fetch hook_url) as [e | response].
  { exists None. simpl. split; [reflexivity |]. split; [auto |].
    intros accepts. split; [discriminate |].
    intros (r & h & d & H & _). discriminate. }
  rewrite andThen_resolved. cbn [fst snd app].
  destruct (Fetch.headers_get response "PAYMENT-REQUIRED") as [[| c rest] |] eqn:Hheader.
  - exists None. simpl. split; [reflexivity |]. split; [auto |].
    intros accepts. split; [discriminate |].
    intros (r & h & d & [= <-] & Hh & Hne & _). congruence.
  - destruct (decodePaymentRequiredHeader (String c rest)) as [e | [decoded |]] eqn:Hdecode.
    + exists None. simpl. split; [reflexivity |]. split; [auto |].
      intros accepts. split; [discriminate |].
      intros (r & h & d & [= <-] & Hh & _ & Hd & _). congruence.
    + cbn. destruct (accepts_of decoded) as [accepts0 |] eqn:Haccepts.
      * exists (Some accepts0). simpl. split; [reflexivity |]. split; [auto |].
        intros accepts. split.
        -- intros [= <-]. exists response, (String c rest), decoded.
           repeat split; auto. discriminate.
        -- intros (r & h & d & [= <-] & Hh & _ & Hd & Ha). congruence.
      * exists None. simpl. split; [reflexivity |]. split; [auto |].
        intros accepts. split; [discriminate |].
        intros (r & h & d & [= <-] & Hh & _ & Hd & Ha). congruence.
    + exists None. simpl. split; [reflexivity |]. split; [auto |].
      intros accepts. split; [discriminate |].
      intros (r & h & d & [= <-] & Hh & _ & Hd & _). congruence.
  - exists None. simpl. split; [reflexivity |]. split; [auto |].
    intros accepts. split; [discriminate |].
    intros (r & h & d & [= <-] & Hh & _). congruence.
Qed.

Lemma after_quiet (s : HookState) (effects : list Effect) :
  quiet effects -> after s effects = s.
Proof.
  intros H. revert s. induction H as [| e l He _ IH]; intros s; [reflexivity |].
  simpl. rewrite He. apply IH.
Qed.

Lemma quiet_keepsRequirements (effects : list Effect) :
  quiet effects -> keepsRequirements effects.
Proof.
  apply Forall_impl. intros e He s. rewrite He. reflexivity.
Qed.

(** The call of a callback, provided or not, sets nothing. *)
Lemma whenProvided_quiet {F : Type} (callbacks : option PayCallbacks)
  (field : PayCallbacks -> option F) (call : Effect) (outcome : F -> Completion unit) :
  (forall s, apply s call = s) ->
  quiet (fst (whenProvided callbacks field
                (fun f => andThen (emit call) (fun _ => await (outcome f))))).
Proof.
  intros Hcall. unfold whenProvided.
  destruct callbacks as [cbs |]; [| constructor].
  destruct (field cbs) as [f |]; [| constructor].
  unfold emit, await. rewrite andThen_resolved. simpl.
  constructor; [exact Hcall | constructor].
Qed.

(** The end of the [try] block stores the result and the status, then
    calls callbacks; it fails only when one of them does. *)
Lemma succeed_effects (callbacks : option PayCallbacks) (data : Json) :
  exists calls,
    quiet calls
    /\ fst (succeed callbacks variables data)
       = ([SetResult data; SetStatus success] ++ calls)%list
    /\ (snd (succeed callbacks variables data) = inr data
        \/ exists e, snd (succeed callbacks variables data) = inl e).
Proof.
  unfold succeed.
  pose proof (whenProvided_quiet callbacks onSuccess (CallOnSuccess data variables)
                (fun f => f data variables) (fun s => eq_refl)) as H1.
  pose proof (whenProvided_quiet callbacks onSettled (CallOnSettled (Some data) None variables)
                (fun f => f (Some data) None variables) (fun s => eq_refl)) as H2.
  destruct (whenProvided callbacks onSuccess _) as [l1 [e1 | []]];
    destruct (whenProvided callbacks onSettled _) as [l2 [e2 | []]];
    cbn [fst snd] in H1, H2; unfold emit, done; simpl.
  - exists l1. split; [assumption |]. split; [reflexivity |]. right. eauto.
  - exists l1. split; [assumption |]. split; [reflexivity |]. right. eauto.
  - exists (l1 ++ l2)%list. split; [apply Forall_app; auto |].
    split; [reflexivity |]. right. eauto.
  - exists (l1 ++ l2 ++ [])%list. split.
    + apply Forall_app. split; [assumption |]. rewrite app_nil_r. assumption.
    + split; [reflexivity |]. left. reflexivity.
Qed.

(** The [catch] clause stores the message and the status, then calls
    callbacks; it always fails. *)
Lemma pay_catch_effects (callbacks : option PayCallbacks) (err : Thrown) :
  exists calls,
    quiet calls
    /\ fst (pay_catch callbacks variables err)
       = ([SetError (Some (errorMessage err)); SetStatus Status.error] ++ calls)%list
    /\ exists e, snd (pay_catch callbacks variables err) = inl e.
Proof.
  unfold pay_catch.
  pose proof (whenProvided_quiet callbacks onError (CallOnError err variables)
                (fun f => f err variables) (fun s => eq_refl)) as H1.
  pose proof (whenProvided_quiet callbacks onSettled (CallOnSettled None (Some err) variables)
                (fun f => f None (Some err) variables) (fun s => eq_refl)) as H2.
  destruct (whenProvided callbacks onError _) as [l1 [e1 | []]];
    destruct (whenProvided callbacks onSettled _) as [l2 [e2 | []]];
    cbn [fst snd] in H1, H2; unfold emit, reject; simpl.
  - exists l1. split; [assumption |]. split; [reflexivity |]. eauto.
  - exists l1. split; [assumption |]. split; [reflexivity |]. eauto.
  - exists (l1 ++ l2)%list. split; [apply Forall_app; auto |].
    split; [reflexivity |]. eauto.
  - exists (l1 ++ l2 ++ [])%list. split.
    + apply Forall_app. split; [assumption |]. rewrite app_nil_r. assumption.
    + split; [reflexivity |]. eauto.
Qed.

(** The [try] block: it logs at most the settlement, and stores a
    result only at its end. *)
Lemma pay_body_effects (wc : WalletClient)
  (paymentRequiredSelector : option (SelectPaymentRequirements JsNumber))
  (callbacks : option PayCallbacks) :
  let run := pay_body wc paymentRequiredSelector callbacks variables in
  exists log,
    quiet log
    /\ ((fst run = log /\ exists e, snd run = inl e)
        \/ exists data calls,
             quiet calls
             /\ fst run = (log ++ [SetResult data; SetStatus success] ++ calls)%list
             /\ (snd run = inr data \/ exists e, snd run = inl e)).
Proof.
  cbv zeta. unfold Hook.pay_body, await.
  destruct (wagmiToClientSigner (extend wc)) as [e | signer].
  { exists []. split; [constructor |]. left. simpl. eauto. }
  rewrite andThen_resolved. cbv zeta. cbn [fst snd app].
  destruct (fetchWithPayment _ signer hook_url) as [e | response].
  { exists []. split; [constructor |]. left. simpl. eauto. }
  rewrite andThen_resolved. cbn [fst snd app].
  assert (Hrest : forall log, quiet log ->
    let run := andThen (log, @inr Thrown unit tt)
                 (fun _ => andThen ([], Fetch.json (Fetch.clone response))
                   (fun data => andThen (requireOk response)
                     (fun _ => succeed callbacks variables data))) in
    exists log0, quiet log0
      /\ ((fst run = log0 /\ exists e, snd run = inl e)
          \/ exists data calls,
               quiet calls
               /\ fst run = (log0 ++ [SetResult data; SetStatus success] ++ calls)%list
               /\ (snd run = inr data \/ exists e, snd run = inl e))).
  { intros log Hlog. cbv zeta. rewrite andThen_resolved.
    destruct (Fetch.json (Fetch.clone response)) as [e | data].
    { exists log. split; [assumption |]. left. simpl. rewrite app_nil_r. eauto. }
    rewrite andThen_resolved. cbn [fst snd app].
    unfold requireOk. destruct (Fetch.ok response).
    - unfold done. rewrite andThen_resolved. cbn [fst snd app].
      destruct (succeed_effects callbacks data) as (calls & Hcalls & Hfst & Hsnd).
      exists log. split; [assumption |]. right. exists data, calls.
      split; [assumption |]. rewrite Hfst. split; [reflexivity | assumption].
    - exists log. split; [assumption |]. left. simpl. rewrite app_nil_r. eauto. }
  destruct (logPaymentResponse_cases _ decodePaymentResponseHeader response)
    as [Hc | [Hc | [e Hc]]]; rewrite Hc.
  - apply (Hrest []). constructor.
  - apply (Hrest [ConsoleLog "Payment details:"]).
    constructor; [reflexivity | constructor].
  - exists []. split; [constructor |]. left. simpl. eauto.
Qed.

Lemma errorMessage_nonempty (err : Thrown) : errorMessage err <> EmptyString.
Proof.
  destruct err as [[| c message] | repr]; discriminate.
Qed.

(** X6.  [pay], with or without a wallet client and whatever the
    callbacks do (they may throw): when it resolves, the status is
    success, the error is cleared and the result is the value it
    resolves with; when it rejects, the status is error and the error
    is a message that is not empty.  It never ends idle or paying, and
    it leaves the payment requirements as they were. *)
Theorem pay_outcome_and_state (walletClient : option WalletClient)
  (paymentRequiredSelector : option (SelectPaymentRequirements JsNumber))
  (callbacks : option PayCallbacks) (s : HookState) :
  let run := pay walletClient paymentRequiredSelector callbacks in
  let s' := after s (fst run) in
  paymentRequirements s' = paymentRequirements s
  /\ match snd run with
     | inr data => status s' = success /\ error s' = None /\ result s' = data
     | inl _ =>
         status s' = Status.error
         /\ exists message, error s' = Some message /\ message <> EmptyString
     end.
Proof.
  cbv zeta. destruct walletClient as [wc |].
  2:{ simpl. split; [reflexivity |]. split; [reflexivity |].
      exists noWalletMessage. split; [reflexivity | discriminate]. }
  rewrite pay_with_wallet. cbv zeta. cbn [fst snd].
  destruct (pay_body_effects wc paymentRequiredSelector callbacks)
    as (log & Hlog & Hbody).
  destruct (pay_body wc paymentRequiredSelector callbacks variables)
    as [effects r] eqn:Hrun.
  cbn [fst snd] in Hbody.
  assert (Hcatch : forall before e guarded,
    guarded = tryCatch (before, inl e) (pay_catch callbacks variables) ->
    let s' := after s (SetStatus paying :: SetError None :: fst guarded) in
    paymentRequirements s' = paymentRequirements (after s (SetStatus paying :: SetError None :: before))
    /\ (exists e', snd guarded = inl e')
    /\ status s' = Status.error
    /\ exists message, error s' = Some message /\ message <> EmptyString).
  { intros before e guarded ->. cbv zeta. rewrite tryCatch_rejected. cbn [fst snd].
    destruct (pay_catch_effects callbacks e) as (calls & Hcalls & Hfst & e' & Hsnd).
    rewrite Hfst, Hsnd.
    change (SetStatus paying :: SetError None :: (before ++ ?l)%list)
      with (([SetStatus paying; SetError None] ++ before) ++ l)%list.
    rewrite !after_app, (after_quiet _ calls Hcalls).
    split; [reflexivity |]. split; [eauto |]. split; [reflexivity |].
    exists (errorMessage e). split; [reflexivity | apply errorMessage_nonempty]. }
  destruct Hbody as [(-> & e & ->) | (data & calls & Hcalls & -> & Hr)].
  - match goal with
    | |- context [snd ?t] => pose proof (Hcatch log e t eq_refl) as H; destruct t
    end.
    cbv zeta in H. cbn [fst snd] in H |- *.
    destruct H as (Hreqs & (e' & ->) & Hstatus & Herror).
    split; [| split; assumption].
    rewrite Hreqs. change (SetStatus paying :: SetError None :: log)
      with ([SetStatus paying; SetError None] ++ log)%list.
    rewrite after_app, (after_quiet _ log Hlog). reflexivity.
  - assert (Hreqs : paymentRequirements
                      (after s (SetStatus paying :: SetError None
                                :: log ++ [SetResult data; SetStatus success] ++ calls))
                    = paymentRequirements s).
    { change (SetStatus paying :: SetError None :: (log ++ ?l)%list)
        with ([SetStatus paying; SetError None] ++ log ++ l)%list.
      rewrite !after_app, (after_quiet _ log Hlog), (after_quiet _ calls Hcalls).
      reflexivity. }
    destruct Hr as [-> | [e ->]].
    + rewrite tryCatch_resolved. cbn [fst snd]. split; [exact Hreqs |].
      change (SetStatus paying :: SetError None :: (log ++ ?l)%list)
        with ([SetStatus paying; SetError None] ++ log ++ l)%list.
      rewrite !after_app, (after_quiet _ log Hlog), (after_quiet _ calls Hcalls).
      repeat split.
    + match goal with
      | |- context [snd ?t] =>
          pose proof (Hcatch (log ++ [SetResult data; SetStatus success] ++ calls)%list
                        e t eq_refl) as H;
          destruct t
      end.
      cbv zeta in H. cbn [fst snd] in H |- *.
      destruct H as (Hreqs' & (e' & ->) & Hstatus & Herror).
      split; [| split; assumption].
      rewrite Hreqs'. exact Hreqs.
Qed.

(** X7.  A wallet client that has no account is found out inside the
    guarded block, after the status was set to paying: [pay] fails with
    "Wallet client must have an account", stores that message, and calls
    the provided [onError] and [onSettled].  The request is not made:
    the run is the same whatever the payment-capable request would
    do. *)
Theorem pay_wallet_without_account (wc : WalletClient)
  (paymentRequiredSelector : option (SelectPaymentRequirements JsNumber))
  (callbacks : option PayCallbacks)
  (request : SelectPaymentRequirements JsNumber -> ClientEvmSigner -> string
             -> Completion Fetch.Response) :
  account wc = None ->
  returnNormally callbacks ->
  let err := ErrorObj "Wallet client must have an account" in
  Hook.pay decodePaymentResponseHeader request hook_url (Some wc)
    paymentRequiredSelector callbacks
  = (([SetStatus paying; SetError None;
       SetError (Some "Wallet client must have an account"); SetStatus Status.error]
      ++ callOf callbacks onError (CallOnError err variables)
      ++ callOf callbacks onSettled (CallOnSettled None (Some err) variables))%list,
     inl err).
Proof.
  intros Haccount Hcbs. cbv zeta. rewrite pay_with_wallet. cbv zeta.
  unfold Hook.pay_body, wagmiToClientSigner, extend, await.
  rewrite Haccount. unfold throw. rewrite andThen_rejected, tryCatch_rejected.
  rewrite (pay_catch_returnNormally hook_url callbacks _ Hcbs). reflexivity.
Qed.

(** The [try] block once the request has returned a response. *)
Lemma pay_body_after_request (wc : WalletClient)
  (paymentRequiredSelector : option (SelectPaymentRequirements JsNumber))
  (callbacks : option PayCallbacks) (signer : ClientEvmSigner)
  (response : Fetch.Response) (log : list Effect) :
  wagmiToClientSigner (extend wc) = inr signer ->
  fetchWithPayment (selectorOrDefault paymentRequiredSelector) signer hook_url
  = inr response ->
  logPaymentResponse response = (log, inr tt) ->
  pay_body wc paymentRequiredSelector callbacks variables
  = match Fetch.json response with
    | inl e => (log, inl e)
    | inr data =>
        if Fetch.ok response then
          ((log ++ fst (succeed callbacks variables data))%list,
           snd (succeed callbacks variables data))
        else
          (log, inl (ErrorObj ("Request failed: " ++ decimal (Fetch.status response)
                               ++ " " ++ Fetch.statusText response)))
    end.
Proof.
  intros Hsigner Hrequest Hlog. unfold Hook.pay_body, await.
  rewrite Hsigner, andThen_resolved. cbv zeta.
  rewrite Hrequest, andThen_resolved. cbn [fst snd app].
  rewrite Hlog, andThen_resolved. unfold Fetch.clone.
  destruct (Fetch.json response) as [e | data].
  - rewrite andThen_rejected. cbn [fst snd]. rewrite app_nil_r. reflexivity.
  - rewrite andThen_resolved. cbn [fst snd app]. unfold requireOk.
    destruct (Fetch.ok response).
    + unfold done. rewrite andThen_resolved. reflexivity.
    + unfold reject. rewrite andThen_rejected. cbn [fst snd].
      rewrite app_nil_r. reflexivity.
Qed.








(** With callbacks that return normally, a [try] block that succeeds
    has stored the result and called the success callbacks. *)
Lemma pay_body_resolves (wc : WalletClient)
  (paymentRequiredSelector : option (SelectPaymentRequirements JsNumber))
  (callbacks : option PayCallbacks) (effects : list Effect) (data : Json) :
  returnNormally callbacks ->
  pay_body wc paymentRequiredSelector callbacks variables = (effects, inr data) ->
  exists log,
    (log = [] \/ log = [ConsoleLog "Payment details:"])
    /\ effects = (log ++ [SetResult data; SetStatus success]
                  ++ callOf callbacks onSuccess (CallOnSuccess data variables)
                  ++ callOf callbacks onSettled (CallOnSettled (Some data) None variables))%list.
Proof.
  intros Hcbs Hrun.
  destruct (wagmiToClientSigner (extend wc)) as [e | signer] eqn:Hsigner.
  { unfold Hook.pay_body in Hrun. rewrite Hsigner in Hrun. discriminate. }
  destruct (fetchWithPayment (selectorOrDefault paymentRequiredSelector) signer hook_url)
    as [e | response] eqn:Hrequest.
  { unfold Hook.pay_body, await in Hrun.
    rewrite Hsigner, andThen_resolved in Hrun. cbv zeta in Hrun.
    rewrite Hrequest in Hrun. discriminate. }
  assert (Hcases : fst (logPaymentResponse response) = []
                   \/ fst (logPaymentResponse response) = [ConsoleLog "Payment details:"]).
  { destruct (logPaymentResponse_cases _ decodePaymentResponseHeader response)
      as [Hc | [Hc | [e Hc]]]; rewrite Hc; auto. }
  destruct (logPaymentResponse response) as [log [e | []]] eqn:Hlog.
  { unfold Hook.pay_body, await in Hrun.
    rewrite Hsigner, andThen_resolved in Hrun. cbv zeta in Hrun.
    rewrite Hrequest, andThen_resolved in Hrun. cbn [fst snd app] in Hrun.
    rewrite Hlog in Hrun. discriminate. }
  rewrite (pay_body_after_request wc paymentRequiredSelector callbacks signer
             response log Hsigner Hrequest Hlog) in Hrun.
  destruct (Fetch.json response) as [e | body]; [discriminate |].
  destruct (Fetch.ok response); [| discriminate].
  rewrite (succeed_returnNormally hook_url callbacks body Hcbs) in Hrun.
  cbn [fst snd] in Hrun. injection Hrun as <- <-.
  exists log. split; [exact Hcases | reflexivity].
Qed.

End HookOutcomes.

(* ================================================================= *)
(** ** The pages *)

Section PageFlows.
Import Js X402 Hook Spec Observations Pages.
Local Open Scope string_scope.

Variable JsNumber : Type.
Variable SettleResponse : Type.
Variable decodePaymentResponseHeader : string -> Completion SettleResponse.
Variable fetchWithPayment :
  SelectPaymentRequirements JsNumber -> ClientEvmSigner -> string
  -> Completion Fetch.Response.
Variable walletClient : option WalletClient.

Local Notation handlePayment :=
  (Pages.handlePayment decodePaymentResponseHeader fetchWithPayment walletClient).
Local Notation pay :=
  (Pages.pay decodePaymentResponseHeader fetchWithPayment walletClient).

Lemma pageCallbacks_returnNormally : returnNormally (Some pageCallbacks).
Proof. repeat split; intros f [= <-]; reflexivity. Qed.

(** X11.  [handlePayment] never rejects.  Without a selection it logs
    and does nothing else.  With one, it calls [pay] with the selector
    pinned to it: when [pay] resolves, it resolves with the same data,
    the status is success and access to the stream is granted; when
    [pay] rejects, it resolves with [undefined], the status is error and
    access is as it was. *)
Theorem handlePayment_outcome (selectedRequirement : option PaymentRequirements)
  (s : HookState) (hasAccessToStream : bool) :
  let run := handlePayment selectedRequirement in
  match selectedRequirement with
  | None =>
      run = ([ConsoleError "Please select a payment option"], inr None)
      /\ after s (fst run) = s
      /\ hasAccessAfter hasAccessToStream (fst run) = hasAccessToStream
  | Some requirement =>
      let paid := pay (Some (Selectors.createSelectByRequirement requirement))
                    (Some pageCallbacks) in
      match snd paid with
      | inr data =>
          run = (fst paid, inr (Some data))
          /\ status (after s (fst run)) = success
          /\ hasAccessAfter hasAccessToStream (fst run) = true
      | inl _ =>
          run = ((fst paid ++ [ConsoleError "Payment failed:"])%list, inr None)
          /\ status (after s (fst run)) = Status.error
          /\ hasAccessAfter hasAccessToStream (fst run) = hasAccessToStream
      end
  end.
Proof.
  cbv zeta. destruct selectedRequirement as [requirement |];
    [| repeat split].
  unfold Pages.handlePayment.
  set (selector := Selectors.createSelectByRequirement requirement).
  pose proof pageCallbacks_returnNormally as Hcbs.
  unfold Pages.pay. destruct walletClient as [wc |].
  2:{ simpl. repeat split. }
  rewrite pay_with_wallet. cbv zeta.
  destruct (pay_body _ _ _ wc (Some selector) (Some pageCallbacks)
              {| url := "/api/stream/access" |}) as [effects [e | data]] eqn:Hbody.
  - rewrite tryCatch_rejected, (pay_catch_returnNormally _ _ e Hcbs).
    cbn [fst snd]. unfold done, emit.
    rewrite andThen_rejected, tryCatch_rejected. cbn [fst snd andThen app].
    split; [reflexivity |].
    pose proof (pay_body_rejects _ _ _ _ _ wc (Some selector) (Some pageCallbacks)
                  effects e Hcbs Hbody) as Hlog.
    split.
    + destruct Hlog as [-> | ->]; reflexivity.
    + destruct Hlog as [-> | ->]; reflexivity.
  - rewrite tryCatch_resolved. cbn [fst snd]. unfold done.
    rewrite andThen_resolved. cbv beta. cbn [fst snd].
    rewrite tryCatch_resolved. cbn [fst snd].
    rewrite app_nil_r. split; [reflexivity |].
    destruct (pay_body_resolves _ _ _ _ _ wc (Some selector) (Some pageCallbacks)
                effects data Hcbs Hbody) as (log & Hlog & ->).
    split; destruct Hlog as [-> | ->]; reflexivity.
Qed.

(** X12.  The effect that selects an option by itself never replaces a
    selection, and running it again changes nothing.  Without a
    selection it selects the first of the loaded requirements, and
    selects nothing only when none are loaded or the list is empty; the
    selector [handlePayment] builds from the option it selected picks
    that option from the list it came from. *)
Theorem autoSelect_picks_payable
  (paymentRequirements : option (list PaymentRequirements))
  (selectedRequirement : option PaymentRequirements) (version : JsNumber) :
  let selection := autoSelect paymentRequirements selectedRequirement in
  (forall r, selectedRequirement = Some r -> selection = Some r)
  /\ autoSelect paymentRequirements selection = selection
  /\ (selectedRequirement = None ->
      match selection with
      | Some r =>
          (exists others, paymentRequirements = Some (r :: others))
          /\ Selectors.createSelectByRequirement r version paymentRequirements = inr r
      | None => paymentRequirements = None \/ paymentRequirements = Some []
      end).
Proof.
  cbv zeta. split; [| split].
  - intros r ->. destruct paymentRequirements as [[| first others] |]; reflexivity.
  - destruct paymentRequirements as [[| first others] |];
      destruct selectedRequirement; reflexivity.
  - intros ->. destruct paymentRequirements as [[| first others] |]; cbn [autoSelect]; auto.
    split; [exists others; reflexivity |].
    unfold Selectors.createSelectByRequirement. cbn [find].
    rewrite (proj2 (sameKeyProperties_keyTuple first first) eq_refl). reflexivity.
Qed.

End PageFlows.

(* ================================================================= *)
(** ** Chain ids read from network identifiers *)

Section ChainIds.
Import Js X402 Host Builtins.
Local Open Scope string_scope.


Lemma prefix_of_append (p s : string) : prefix p (p ++ s) = true.
Proof.
  induction p as [| a p IH]; [destruct s; reflexivity |]. simpl.
  destruct (ascii_dec a a); [exact IH | congruence].
Qed.

(** A digit is not the separator. *)
Lemma split_digits (digits : string) :
  allDigits digits = true -> split ":" digits = [digits].
Proof.
  induction digits as [| c rest IH]; [reflexivity |].
  cbn [allDigits]. intros H. apply andb_true_iff in H as [Hc Hrest].
  cbn [split]. rewrite (IH Hrest).
  destruct (Ascii.eqb_spec c ":") as [-> |]; [discriminate Hc | reflexivity].
Qed.

Lemma split_eip155 (digits : string) :
  allDigits digits = true ->
  nth_error (split ":" ("eip155:" ++ digits)) 1 = Some digits.
Proof.
  intros H. cbn [append split Ascii.eqb Bool.eqb]. simpl.
  rewrite (split_digits digits H). reflexivity.
Qed.

(** A string that starts with a digit carries no sign and no white
    space. *)
Lemma parseInt10_digit_head (c : ascii) (rest : string) :
  isDigit c = true ->
  parseInt10 (String c rest) = parseDigits false (String c rest).
Proof.
  destruct c as [[] [] [] [] [] [] [] []]; intros Hc;
    try discriminate Hc; reflexivity.
Qed.

Lemma parseInt10_digits (digits : string) :
  allDigits digits = true -> digits <> EmptyString ->
  parseInt10 digits = roundRatio false (Z.of_N (digitsToN digits)) 1.
Proof.
  intros Hdigits Hne. destruct digits as [| c rest]; [congruence |].
  pose proof Hdigits as Hall.
  cbn [allDigits] in Hdigits. apply andb_true_iff in Hdigits as [Hc _].
  rewrite (parseInt10_digit_head c rest Hc). unfold parseDigits.
  rewrite (takeDigits_all _ Hall). reflexivity.
Qed.

(** An integer below [2^53] is a double. *)
Lemma roundRatio_integer (n : Z) :
  (0 <= n < 2 ^ 53)%Z ->
  isInteger (roundRatio false n 1) n
  /\ truthyNumber (roundRatio false n 1) = negb (n =? 0)%Z.
Proof.
  intros [Hlo Hhi].
  destruct (Z.eq_dec n 0) as [-> | Hn].
  { unfold roundRatio, isInteger. simpl. split; [split; [lia | reflexivity] | reflexivity]. }
  assert (Hpos : (0 < n)%Z) by lia.
  rewrite (roundRatio_positive false n 1 Hpos).
  set (L := Z.log2 n).
  assert (HL : (0 <= L <= 52)%Z).
  { subst L. split; [apply Z.log2_nonneg |].
    assert (Z.log2 n < 53)%Z by (apply Z.log2_lt_pow2; lia). lia. }
  assert (Hplace : lastPlace n 1 = (L + 1022)%Z).
  { unfold lastPlace. rewrite Z.div_1_r, Z.log2_mul_pow2 by lia. fold L. lia. }
  assert (Hsplit : (n * 2 ^ 1074 = n * 2 ^ (52 - L) * (1 * 2 ^ (L + 1022)))%Z).
  { rewrite Z.mul_1_l, <- Z.mul_assoc, <- Z.pow_add_r by lia.
    do 2 f_equal. lia. }
  assert (Hb : (0 < 1 * 2 ^ (L + 1022))%Z).
  { rewrite Z.mul_1_l. apply Z.pow_pos_nonneg; lia. }
  assert (Hsig : significand n 1 = (n * 2 ^ (52 - L))%Z).
  { unfold significand, roundHalfEven. rewrite Hplace, Hsplit.
    rewrite Z.div_mul, Z.mod_mul by lia.
    destruct (Z.ltb_spec (2 * 0) (1 * 2 ^ (L + 1022))); [reflexivity | lia]. }
  assert (Hsigpos : (0 < significand n 1)%Z).
  { rewrite Hsig. apply Z.mul_pos_pos; [lia | apply Z.pow_pos_nonneg; lia]. }
  assert (Hvalue : (significand n 1 * 2 ^ lastPlace n 1 = n * 2 ^ 1074)%Z).
  { rewrite Hsig, Hplace, Hsplit, Z.mul_1_l. reflexivity. }
  assert (Hfinite : (n * 2 ^ 1074 < 2 ^ 2098)%Z).
  { apply Z.lt_trans with (2 ^ 53 * 2 ^ 1074)%Z.
    - apply Z.mul_lt_mono_pos_r; [apply Z.pow_pos_nonneg; lia | exact Hhi].
    - rewrite <- Z.pow_add_r by lia. apply Z.pow_lt_mono_r; lia. }
  rewrite Hvalue.
  destruct (Z.leb_spec (2 ^ 2098) (n * 2 ^ 1074)); [lia |].
  unfold isInteger, truthyNumber. split; [split |].
  - rewrite Hplace. lia.
  - rewrite Z2N.id by lia.
    replace (lastPlace n 1 - 1074 + 1074)%Z with (lastPlace n 1) by lia.
    exact Hvalue.
  - destruct (Z.eqb_spec n 0); [lia |].
    destruct (N.eqb_spec (Z.to_N (significand n 1)) 0); [lia | reflexivity].
Qed.

(** X13.  [extractChainId] reads back the chain id that a network
    identifier was built from: for a chain id below [2^53],
    [extractChainId] of ["eip155:" + id] is the number [id]; that number
    is truthy, so that the component reads the token, exactly when the
    id is not 0. *)
Theorem extractChainId_of_eip155 (id : N) :
  (id < 2 ^ 53)%N ->
  exists chain,
    Component.extractChainId (Selectors.eip155 decimal id) = Some chain
    /\ isInteger chain (Z.of_N id)
    /\ truthyNumber chain = negb (id =? 0)%N.
Proof.
  intros Hid.
  destruct (decimal_digits id) as (Hdigits & Hvalue & Hne).
  exists (roundRatio false (Z.of_N id) 1).
  assert (Hrange : (0 <= Z.of_N id < 2 ^ 53)%Z).
  { split; [lia |]. change (2 ^ 53)%Z with (Z.of_N (2 ^ 53)). lia. }
  destruct (roundRatio_integer (Z.of_N id) Hrange) as [Hint Htruthy].
  split; [| split; [exact Hint |]].
  - unfold Component.extractChainId, Selectors.eip155.
    rewrite prefix_of_append, (split_eip155 _ Hdigits).
    rewrite (parseInt10_digits _ Hdigits Hne), Hvalue. reflexivity.
  - rewrite Htruthy. f_equal.
    destruct (Z.eqb_spec (Z.of_N id) 0); destruct (N.eqb_spec id 0); lia || reflexivity.
Qed.


End ChainIds.

(* ================================================================= *)
(** ** Token reads of the component *)

Section TokenReads.
Import Js X402 Host Builtins Component Observations.
Local Open Scope string_scope.

Variable formatUnits : TokenValue -> TokenValue -> Completion string.
(** The outcome of each read. *)
Variable read : ContractCall -> TokenRead.

Local Notation getTokenInfo := (Component.getTokenInfo formatUnits).







(** X16.  The amount the component shows for a requirement is read
    from [value] before [amount], the amount the stream page checks the
    balance against from [amount] before [value].  The two are the same
    string exactly when one of the two properties is missing or empty,
    or both hold the same string. *)
Theorem shown_and_checked_amount (requirement : PaymentRequirements) :
  shownAmountOf requirement = Page.requiredAmountOf requirement
  <-> (amount requirement = EmptyString
       \/ value requirement = None
       \/ value requirement = Some EmptyString
       \/ value requirement = Some (amount requirement)).
Proof.
  unfold shownAmountOf, Page.requiredAmountOf, or_else.
  destruct (value requirement) as [[| c v] |];
    destruct (amount requirement) as [| a amt]; cbn [truthy]; split; auto;
    try (intros H; injection H as -> ->; auto).
  intros [H | [H | [H | H]]]; try discriminate. injection H as -> ->. reflexivity.
Qed.

End TokenReads.

(* ================================================================= *)
(** ** The chains of the component *)

Section UniqueChainIds.
Import Js X402 Host Builtins Component.
Local Open Scope string_scope.

Lemma F64_ge_refl (x : F64) : x <> F64_nan -> F64_ge x x = true.
Proof.
  destruct x as [| [] | negative m e]; [congruence | reflexivity | reflexivity |].
  intros _. unfold F64_ge. apply Z.leb_refl.
Qed.

Lemma sameValueZero_refl (x : F64) : sameValueZero x x = true.
Proof.
  destruct x as [| negative | negative m e]; [reflexivity | |];
    unfold sameValueZero; rewrite F64_ge_refl by discriminate; reflexivity.
Qed.

Lemma sameValueZero_sym (x y : F64) : sameValueZero x y = sameValueZero y x.
Proof.
  destruct x, y; unfold sameValueZero; try reflexivity; apply andb_comm.
Qed.

(** What is in the set, or is added to it, is in the set afterwards. *)
Lemma Set_add_covers (set : list F64) (x y : F64) :
  (exists z, In z set /\ sameValueZero z y = true) \/ x = y ->
  exists z, In z (Set_add set x) /\ sameValueZero z y = true.
Proof.
  unfold Set_add. intros [(z & Hz & Hzy) | <-].
  - exists z. split; [| exact Hzy].
    destruct (existsb _ set); [exact Hz | right; exact Hz].
  - destruct (existsb (sameValueZero x) set) eqn:Hseen.
    + apply existsb_exists in Hseen as (z & Hz & Hxz).
      exists z. split; [exact Hz |]. rewrite sameValueZero_sym. exact Hxz.
    + exists x. split; [left; reflexivity | apply sameValueZero_refl].
Qed.

Lemma fold_Set_add_covers (values set : list F64) (y : F64) :
  (exists z, In z set /\ sameValueZero z y = true) \/ In y values ->
  exists z, In z (fold_left Set_add values set) /\ sameValueZero z y = true.
Proof.
  revert set. induction values as [| x values IH]; intros set H.
  - destruct H as [H | []]. exact H.
  - cbn [fold_left]. apply IH.
    destruct H as [H | [<- | H]].
    + left. apply (Set_add_covers set x y). left. exact H.
    + left. apply (Set_add_covers set x x). right. reflexivity.
    + right. exact H.
Qed.

(** Each element of the set differs from those added before it. *)
Lemma fold_Set_add_distinct (values set : list F64) :
  (forall l1 x l2, set = (l1 ++ x :: l2)%list -> existsb (sameValueZero x) l2 = false) ->
  forall l1 x l2, fold_left Set_add values set = (l1 ++ x :: l2)%list ->
                  existsb (sameValueZero x) l2 = false.
Proof.
  revert set. induction values as [| v values IH]; intros set Hset; [exact Hset |].
  cbn [fold_left]. apply IH. unfold Set_add.
  destruct (existsb (sameValueZero v) set) eqn:Hseen; [exact Hset |].
  intros [| y l1] x l2 H; injection H as -> ->; [exact Hseen |].
  apply (Hset l1 x l2 eq_refl).
Qed.

Lemma chainId_of_call (user : option string) (requirement : PaymentRequirements)
  (call : ContractCall) :
  In call (callsOf user requirement) ->
  extractChainId (or_else (network requirement) EmptyString) = Some (chainId call)
  /\ truthyNumber (chainId call) = true.
Proof.
  unfold callsOf.
  destruct (extractChainId _) as [chain |]; [| intros []].
  destruct (truthyNumber chain) eqn:Hchain; [| intros []].
  destruct (truthy (asset requirement)); [| intros []].
  cbn [andb tokenCalls In].
  intros [<- | [<- | [<- | [<- | []]]]]; split; auto.
Qed.

(** X17.  The chain ids the component collects are pairwise different
    numbers, and every token read in [contracts] is addressed to one of
    them. *)
Theorem contracts_on_uniqueChainIds
  (paymentRequirements : option (list PaymentRequirements))
  (userAddress : option string) :
  (forall before a between b after,
     uniqueChainIds paymentRequirements
     = (before ++ a :: between ++ b :: after)%list ->
     sameValueZero a b = false)
  /\ (forall call,
        In call (contracts paymentRequirements userAddress) ->
        exists id, In id (uniqueChainIds paymentRequirements)
                   /\ sameValueZero id (chainId call) = true).
Proof.
  unfold uniqueChainIds, Array_from_Set, contracts.
  set (reqs := match paymentRequirements with Some l => l | None => [] end).
  set (chainIds := flat_map _ reqs).
  split.
  - intros before a between b after H.
    apply (f_equal (@rev F64)) in H. rewrite rev_involutive in H.
    rewrite rev_app_distr in H. cbn [rev] in H.
    rewrite rev_app_distr in H. cbn [rev] in H.
    rewrite <- !app_assoc in H. cbn [app] in H.
    assert (Hempty : forall l1 x l2, @nil F64 = (l1 ++ x :: l2)%list ->
                       existsb (sameValueZero x) l2 = false).
    { intros [| ? ?] ? ? E; discriminate E. }
    pose proof (fold_Set_add_distinct chainIds [] Hempty (rev after) b
                  (rev between ++ a :: rev before)%list H) as Hb.
    rewrite existsb_app in Hb. apply orb_false_iff in Hb as [_ Hb].
    cbn [existsb] in Hb. apply orb_false_iff in Hb as [Hb _].
    rewrite sameValueZero_sym. exact Hb.
  - intros call Hcall. apply in_flat_map in Hcall as (requirement & Hreq & Hcall).
    apply chainId_of_call in Hcall as [Hchain _].
    assert (Hin : In (chainId call) chainIds).
    { subst chainIds. apply in_flat_map. exists requirement.
      split; [exact Hreq |]. rewrite Hchain. left. reflexivity. }
    destruct (fold_Set_add_covers chainIds [] (chainId call) (or_intror Hin))
      as (z & Hz & Hzy).
    exists z. split; [apply -> in_rev; exact Hz | exact Hzy].
Qed.

End UniqueChainIds.

(* ================================================================= *)
(** ** More runs on concrete inputs *)

Section MoreRuns.
Import Js X402 Hook.
Local Open Scope string_scope.

Example token_of_skipped_offer :
  let tokenData := Some (map Scenarios.read
                           (Component.contracts (Some Scenarios.mixedOffers) (Some "0xCCC"))) in
  Component.symbol (Component.getTokenInfo Scenarios.formatUnits tokenData 0)
  = Some (Component.TextValue "USDC")
  /\ Component.balance (Component.getTokenInfo Scenarios.formatUnits tokenData 0)
     = Some "2.5"
  /\ Component.symbol (Component.getTokenInfo Scenarios.formatUnits tokenData 1) = None.
Proof. vm_compute. repeat split. Qed.

Example chain_id_of_loose_network :
  Component.extractChainId "eip155:10:usdc"
  = Component.extractChainId "eip155:10"
  /\ Pages.matchEip155 "eip155:10:usdc" = None
  /\ Pages.matchEip155 "eip155:10" = Some "10".
Proof. vm_compute. repeat split. Qed.

Example uniqueChainIds_of_repeated_networks :
  length (Component.uniqueChainIds (Some (Demo.offers ++ Demo.tiedOffers)%list)) = 4%nat
  /\ Component.uniqueChainIds (Some (Demo.offers ++ Demo.offers)%list)
     = Component.uniqueChainIds (Some Demo.offers).
Proof. vm_compute. split; reflexivity. Qed.

Lemma selectors_return_an_offer_witness :
  Selectors.selectCheapestOption Host.BigInt 2%N (Some Demo.offers)
  = inr (Demo.requirement "eip155:10" "50")
  /\ exists offers,
       Some Demo.offers = Some offers /\ In (Demo.requirement "eip155:10" "50") offers.
Proof.
  assert (H : Selectors.selectCheapestOption Host.BigInt 2%N (Some Demo.offers)
              = inr (Demo.requirement "eip155:10" "50")) by reflexivity.
  split; [exact H |].
  exact (selectors_return_an_offer N decimal Host.BigInt 10%N Demo.pinned 2%N
           (Some Demo.offers) _ (or_intror (or_introl H))).
Defined.

Lemma selectCheapestOption_returns_iff_witness :
  Demo.malformedOffers <> []
  /\ ((exists r, Selectors.selectCheapestOption Host.BigInt 2%N (Some Demo.malformedOffers)
                 = inr r)
      <-> (length Demo.malformedOffers = 1%nat
           \/ Forall (Spec.integerAmount Host.BigInt) Demo.malformedOffers)).
Proof.
  assert (Hne : Demo.malformedOffers <> []) by discriminate.
  split; [exact Hne |].
  exact (proj1 (selectCheapestOption_returns_iff N Host.BigInt 2%N
                  Demo.malformedOffers Hne)).
Defined.

Lemma targeted_selectors_return_iff_witness :
  Demo.offers <> []
  /\ ((exists r, Selectors.createSelectForCurrentNetwork decimal 137%N 2%N
                   (Some Demo.offers) = inr r)
      <-> exists x, In x Demo.offers /\ network x = Selectors.eip155 decimal 137%N).
Proof.
  assert (Hne : Demo.offers <> []) by discriminate.
  split; [exact Hne |].
  exact (proj1 (targeted_selectors_return_iff N decimal 137%N Demo.pinned 2%N
                  Demo.offers Hne)).
Defined.

Lemma pinning_keeps_selection_witness :
  Selectors.createSelectForCurrentNetwork decimal 8453%N 2%N (Some Demo.offers)
  = inr (Demo.requirement "eip155:8453" "75")
  /\ Selectors.createSelectByRequirement (Demo.requirement "eip155:8453" "75") 1%N
       (Some Demo.offers)
     = inr (Demo.requirement "eip155:8453" "75").
Proof.
  assert (H : Selectors.createSelectForCurrentNetwork decimal 8453%N 2%N (Some Demo.offers)
              = inr (Demo.requirement "eip155:8453" "75")) by reflexivity.
  split; [exact H |].
  exact (pinning_keeps_selection N decimal Host.BigInt 8453%N 2%N 1%N
           (Some Demo.offers) _ (or_intror (or_intror H))).
Defined.

Lemma pay_wallet_without_account_witness :
  let err := ErrorObj "Wallet client must have an account" in
  let variables := {| url := "/api/stream/access" |} in
  account Scenarios.walletWithoutAccount = None
  /\ Spec.returnNormally (Some Demo.observers)
  /\ Demo.pay Demo.offers None (Some Scenarios.walletWithoutAccount) None
       (Some Demo.observers)
     = ([SetStatus paying; SetError None;
         SetError (Some "Wallet client must have an account"); SetStatus Status.error;
         CallOnError err variables; CallOnSettled None (Some err) variables],
        inl err).
Proof.
  cbv zeta. split; [reflexivity |]. split; [exact observers_returnNormally |].
  exact (pay_wallet_without_account N string Sdk.decodePaymentResponseHeader
           "/api/stream/access" Scenarios.walletWithoutAccount None (Some Demo.observers)
           (Sdk.wrapFetchWithPayment (Demo.server Demo.offers None))
           eq_refl observers_returnNormally).
Defined.



Lemma extractChainId_of_eip155_witness :
  (8453 < 2 ^ 53)%N
  /\ exists chain,
       Component.extractChainId "eip155:8453" = Some chain
       /\ Builtins.isInteger chain 8453
       /\ Builtins.truthyNumber chain = true.
Proof.
  assert (H : (8453 < 2 ^ 53)%N) by reflexivity.
  split; [exact H |].
  exact (extractChainId_of_eip155 8453%N H).
Defined.



End MoreRuns.
